(** * Material UI MCP server: catalog, search, key normaliser and page scraper

    A shallow embedding of [src/index.ts] (class [MyMCP]).

    Strings.  The development has two layers.  The first reads a
    JavaScript string as ASCII text, a Rocq [string]: the case mappings
    [toLowerCase] / [toUpperCase] move the letters A-Z / a-z and the
    white-space class is the ASCII one (tab, line feed, vertical tab, form
    feed, carriage return, space); it is exact on strings with no code unit
    from 128 on, and the properties stated on it are about the tables of the
    source or carry that condition.  The second, [Utf16], reads a string as
    a sequence of UTF-16 code units of any value, with the white-space class
    of the language and the case mappings of the language as parameters; the
    properties that speak of every string are stated there.

    Effects.  The only effectful tool is [get_component_info]: the outcome
    of [fetch], of [response.text()] and of the [RegExp] constructor is a
    [completion] (a value or a thrown exception), and the handler's
    [try]/[catch] is written out. *)

From Stdlib Require Import List String Ascii Bool Arith Lia DecimalString NArith.
Import ListNotations.
Open Scope string_scope.

(* ================================================================= *)
(** ** JavaScript string primitives used by the server *)

Module Js.

Definition nl : string := String "010"%char "".
Definition dquote : string := String "034"%char "".

Definition isUpper (c : ascii) : bool :=
  ((65 <=? nat_of_ascii c) && (nat_of_ascii c <=? 90))%nat.

Definition isLower (c : ascii) : bool :=
  ((97 <=? nat_of_ascii c) && (nat_of_ascii c <=? 122))%nat.

Definition charToLower (c : ascii) : ascii :=
  if isUpper c then ascii_of_nat (nat_of_ascii c + 32) else c.

Definition charToUpper (c : ascii) : ascii :=
  if isLower c then ascii_of_nat (nat_of_ascii c - 32) else c.

(** [\s] *)
Definition isSpace (c : ascii) : bool :=
  let n := nat_of_ascii c in
  ((n =? 9) || (n =? 10) || (n =? 11) || (n =? 12) || (n =? 13) || (n =? 32))%nat.

(** [s.toLowerCase()] *)
Fixpoint toLowerCase (s : string) : string :=
  match s with
  | "" => ""
  | String c s' => String (charToLower c) (toLowerCase s')
  end.

(** [s.toUpperCase()] *)
Fixpoint toUpperCase (s : string) : string :=
  match s with
  | "" => ""
  | String c s' => String (charToUpper c) (toUpperCase s')
  end.

(** [s.startsWith(p)] *)
Fixpoint startsWith (s p : string) {struct p} : bool :=
  match p, s with
  | "", _ => true
  | String a p', String b s' => Ascii.eqb a b && startsWith s' p'
  | String _ _, "" => false
  end.

(** [s.includes(sub)]: some position of [s] starts an occurrence of [sub];
    the empty string occurs in every string. *)
Fixpoint includes (s sub : string) : bool :=
  startsWith s sub ||
  match s with
  | "" => false
  | String _ s' => includes s' sub
  end.

(** [s.charAt(0)]: the empty string when [s] is empty. *)
Definition charAt0 (s : string) : string :=
  match s with
  | "" => ""
  | String c _ => String c ""
  end.

(** [s.slice(1)] *)
Definition slice1 (s : string) : string :=
  match s with
  | "" => ""
  | String _ s' => s'
  end.

(** [s.split(sep)] for a one-character separator: never the empty list. *)
Fixpoint split (sep : ascii) (s : string) : list string :=
  match s with
  | "" => [""]
  | String c s' =>
      if Ascii.eqb c sep then "" :: split sep s'
      else match split sep s' with
           | w :: ws => String c w :: ws
           | [] => [String c ""]
           end
  end.

(** [xs.join(sep)] *)
Definition join (sep : string) (xs : list string) : string := concat sep xs.

Definition startsWithSpace (s : string) : bool :=
  match s with
  | "" => false
  | String c _ => isSpace c
  end.

(** [s.replace(/\s+/g, r)]: every maximal run of white space becomes one
    [r]; the replacement is written when the last character of the run is
    reached. *)
Fixpoint replaceSpaceRuns (r s : string) : string :=
  match s with
  | "" => ""
  | String c s' =>
      if isSpace c then
        if startsWithSpace s' then replaceSpaceRuns r s'
        else r ++ replaceSpaceRuns r s'
      else String c (replaceSpaceRuns r s')
  end.

(** Template interpolation of a non-negative integer: its decimal digits. *)
Definition numToString (n : nat) : string :=
  NilEmpty.string_of_uint (Nat.to_uint n).

(** A [Set<string>]: members in insertion order, [add] ignores a member
    that is already there. *)
Definition SetOfString := list string.

Definition has (m : SetOfString) (x : string) : bool :=
  existsb (String.eqb x) m.

Definition add (m : SetOfString) (x : string) : SetOfString :=
  if has m x then m else (m ++ [x])%list.

End Js.

(* ================================================================= *)
(** ** The static catalog *)

Definition COMPONENTS : list string :=
  [ "Accordion"; "Alert"; "App Bar"; "Autocomplete"; "Avatar"; "Backdrop";
    "Badge"; "Bottom Navigation"; "Box"; "Breadcrumbs"; "Button"; "Button Group";
    "Card"; "Checkbox"; "Chip"; "Circular Progress"; "Click Away Listener";
    "Container"; "CSS Baseline"; "Dialog"; "Divider"; "Drawer";
    "Floating Action Button"; "Grid"; "Image List"; "Linear Progress"; "Link";
    "List"; "Masonry"; "Menu"; "Modal"; "Pagination"; "Paper"; "Popover";
    "Popper"; "Portal"; "Radio Button"; "Rating"; "Select"; "Skeleton";
    "Slider"; "Snackbar"; "Speed Dial"; "Stack"; "Stepper"; "Switch";
    "Table"; "Tabs"; "Text Field"; "Textarea Autosize"; "Timeline";
    "Toggle Button"; "Tooltip"; "Transfer List"; "Tree View"; "Typography" ].

(** [Object.entries(COMPONENT_MAP)] lists the categories in the order they
    are written: none of the keys is an integer index. *)
Definition COMPONENT_MAP : list (string * list string) :=
  [ ("form", ["Text Field"; "Select"; "Checkbox"; "Radio Button"; "Switch"; "Slider"; "Autocomplete"; "Toggle Button"]);
    ("input", ["Text Field"; "Autocomplete"; "Select"; "Textarea Autosize"]);
    ("button", ["Button"; "Floating Action Button"; "Button Group"; "Toggle Button"]);
    ("navigation", ["App Bar"; "Bottom Navigation"; "Breadcrumbs"; "Drawer"; "Link"; "Menu"; "Stepper"; "Tabs"]);
    ("layout", ["Box"; "Container"; "Grid"; "Stack"; "Image List"; "Masonry"]);
    ("data", ["Table"; "List"; "Transfer List"; "Tree View"; "Pagination"]);
    ("feedback", ["Alert"; "Backdrop"; "Dialog"; "Progress"; "Circular Progress"; "Linear Progress"; "Skeleton"; "Snackbar"]);
    ("overlay", ["Modal"; "Popover"; "Popper"; "Tooltip"; "Menu"; "Drawer"; "Dialog"]);
    ("surface", ["Card"; "Paper"; "Accordion"]);
    ("display", ["Avatar"; "Badge"; "Chip"; "Divider"; "Typography"; "Timeline"]);
    ("selection", ["Checkbox"; "Radio Button"; "Select"; "Switch"; "Autocomplete"]);
    ("notification", ["Alert"; "Snackbar"]);
    ("loading", ["Circular Progress"; "Linear Progress"; "Skeleton"; "Backdrop"]);
    ("utility", ["Click Away Listener"; "CSS Baseline"; "Portal"; "No SSR"]) ].

(* ================================================================= *)
(** ** Name helpers *)

Definition toKebabCase (name : string) : string :=
  Js.replaceSpaceRuns "-" (Js.toLowerCase name).

Definition getComponentUrl (component : string) : string :=
  let kebabName := toKebabCase component in
  "https://mui.com/material-ui/react-" ++ kebabName ++ "/".

(** The title the [get_component_info] tool derives from its key:
    [component.split("-").map(w => w.charAt(0).toUpperCase() + w.slice(1)).join(" ")] *)
Definition capitalize (w : string) : string :=
  Js.toUpperCase (Js.charAt0 w) ++ Js.slice1 w.

Definition keyToTitle (component : string) : string :=
  Js.join " " (map capitalize (Js.split "-" component)).

(* ================================================================= *)
(** ** Tool results *)

Record ContentItem := { type : string; text : string }.
Record ToolResult := { content : list ContentItem }.

Definition textResult (t : string) : ToolResult :=
  {| content := [ {| type := "text"; text := t |} ] |}.

(* ================================================================= *)
(** ** Tool [list_components] *)

Definition list_components_line (name : string) : string :=
  let kebabCase := toKebabCase name in
  "- " ++ name ++ " (" ++ kebabCase ++ ")".

Definition list_components : ToolResult :=
  let componentList := Js.join Js.nl (map list_components_line COMPONENTS) in
  textResult
    ("# Material UI Components (" ++ Js.numToString (List.length COMPONENTS)
       ++ " total)" ++ Js.nl ++ Js.nl ++ componentList ++ Js.nl ++ Js.nl
       ++ "Use get_component_info with the kebab-case name to get details."
       ++ Js.nl ++ Js.nl
       ++ "For comprehensive MUI documentation guidance, use get_mui_guide.").

(* ================================================================= *)
(** ** Tool [search_components] *)

(** The loop [for (const [category, components] of Object.entries(map))]
    with its inner loop [for (const c of components) matches.add(c)]. *)
Definition categoryPass (lowerQuery : string) (map : list (string * list string))
    (matches : Js.SetOfString) : Js.SetOfString :=
  fold_left
    (fun acc (entry : string * list string) =>
       let (category, components) := entry in
       if Js.includes lowerQuery category
       then fold_left Js.add components acc
       else acc)
    map matches.

(** The loop [names.forEach((component) => ...)]. *)
Definition namePass (lowerQuery : string) (names : list string)
    (matches : Js.SetOfString) : Js.SetOfString :=
  fold_left
    (fun acc component =>
       if Js.includes (Js.toLowerCase component) lowerQuery
       then Js.add acc component
       else acc)
    names matches.

(** The set [matches] when both loops are over. *)
Definition search_matches (query : string) : Js.SetOfString :=
  let lowerQuery := Js.toLowerCase query in
  namePass lowerQuery COMPONENTS (categoryPass lowerQuery COMPONENT_MAP []).

Definition search_result_line (name : string) : string :=
  let kebab := toKebabCase name in
  let url := getComponentUrl name in
  "- " ++ name ++ " (" ++ kebab ++ ")" ++ Js.nl ++ "  " ++ url.

Definition search_empty_text (query : string) : string :=
  "No components found matching '" ++ query ++ "'." ++ Js.nl ++ Js.nl
    ++ "Try broader terms like: form, navigation, overlay, feedback, data, layout, input, button".

Definition search_found_text (query : string) (matches : Js.SetOfString) : string :=
  let resultList := Js.join Js.nl (map search_result_line matches) in
  "# Components matching " ++ Js.dquote ++ query ++ Js.dquote ++ " ("
    ++ Js.numToString (List.length matches) ++ " found)" ++ Js.nl ++ Js.nl
    ++ resultList ++ Js.nl ++ Js.nl
    ++ "Use get_component_info with the kebab-case name for details.".

Definition search_components (query : string) : ToolResult :=
  let matches := search_matches query in
  if (List.length matches =? 0)%nat
  then textResult (search_empty_text query)
  else textResult (search_found_text query matches).


(* ================================================================= *)
(** ** Regular expressions

    The three literal patterns of the source are sequences of single
    characters, greedy repetitions of a character class and one capture
    group.  [matchHere] is the backtracking matcher of the language at one
    start position (a greedy repetition first takes all it can and gives
    characters back one by one), [exec] tries the start positions from left
    to right, as [String.prototype.match] does for a pattern without the
    [g] flag. *)

Module RegExp.

Definition cls := ascii -> bool.

Inductive item : Type :=
| One (p : cls)
| Star (p : cls)
| Plus (p : cls)
| GroupOpen
| GroupClose.

Definition regex := list item.

(** A pattern character under the [i] flag: both sides are canonicalised
    with [toUpperCase]. *)
Definition chr_i (c : ascii) : cls :=
  fun x => Ascii.eqb (Js.charToUpper x) (Js.charToUpper c).

(** [[^c]] *)
Definition notChr (c : ascii) : cls := fun x => negb (Ascii.eqb x c).

Fixpoint lits_i (s : string) : regex :=
  match s with
  | "" => []
  | String c s' => One (chr_i c) :: lits_i s'
  end.

(** What a match has consumed: [whole] is [m[0]], [group1] is [m[1]]. *)
Record captures := { whole : string; group1 : string; inGroup : bool }.

Definition noCaptures : captures :=
  {| whole := ""; group1 := ""; inGroup := false |}.

Definition take (c : ascii) (caps : captures) : captures :=
  {| whole := whole caps ++ String c "";
     group1 := if inGroup caps then group1 caps ++ String c "" else group1 caps;
     inGroup := inGroup caps |}.

Definition openGroup (caps : captures) : captures :=
  {| whole := whole caps; group1 := ""; inGroup := true |}.

Definition closeGroup (caps : captures) : captures :=
  {| whole := whole caps; group1 := group1 caps; inGroup := false |}.

Fixpoint star (p : cls) (k : string -> captures -> option captures)
    (s : string) (caps : captures) : option captures :=
  match s with
  | String c s' =>
      if p c then
        match star p k s' (take c caps) with
        | Some m => Some m
        | None => k s caps
        end
      else k s caps
  | "" => k s caps
  end.

Fixpoint matchHere (r : regex) (s : string) (caps : captures)
  : option captures :=
  match r with
  | [] => Some caps
  | One p :: r' =>
      match s with
      | String c s' => if p c then matchHere r' s' (take c caps) else None
      | "" => None
      end
  | Star p :: r' => star p (matchHere r') s caps
  | Plus p :: r' =>
      match s with
      | String c s' =>
          if p c then star p (matchHere r') s' (take c caps) else None
      | "" => None
      end
  | GroupOpen :: r' => matchHere r' s (openGroup caps)
  | GroupClose :: r' => matchHere r' s (closeGroup caps)
  end.

(** [s.match(r)]: [None] is [null]. *)
Fixpoint exec (r : regex) (s : string) : option captures :=
  match matchHere r s noCaptures with
  | Some m => Some m
  | None =>
      match s with
      | "" => None
      | String _ s' => exec r s'
      end
  end.

End RegExp.

Import RegExp.

(* ================================================================= *)
(** ** Content extractor *)

Definition dq : ascii := "034"%char.

(** The pattern [/<meta\s+name=Qdescription Q\s+content=Q([^Q]+)Q/i], where
    Q stands for the double quote character (and no space follows
    "description"). *)
Definition metaRegex : regex :=
  (lits_i "<meta" ++ [Plus Js.isSpace]
   ++ lits_i ("name=" ++ Js.dquote ++ "description" ++ Js.dquote)
   ++ [Plus Js.isSpace]
   ++ lits_i ("content=" ++ Js.dquote)
   ++ [GroupOpen; Plus (notChr dq); GroupClose]
   ++ lits_i Js.dquote)%list.

(** [/<p[^>]*>([^<]+)<\/p>/i] *)
Definition pRegex : regex :=
  (lits_i "<p" ++ [Star (notChr ">")] ++ lits_i ">"
   ++ [GroupOpen; Plus (notChr "<"); GroupClose]
   ++ lits_i "</p>")%list.

(** [/<code[^>]*>([^<]+)<\/code>/i] *)
Definition codeRegex : regex :=
  (lits_i "<code" ++ [Star (notChr ">")] ++ lits_i ">"
   ++ [GroupOpen; Plus (notChr "<"); GroupClose]
   ++ lits_i "</code>")%list.

Definition extractDescription (html : string) : string :=
  match exec metaRegex html with
  | Some metaMatch => group1 metaMatch
  | None =>
      match exec pRegex html with
      | Some pMatch => group1 pMatch
      | None => "Component description not available"
      end
  end.

Definition extractUsage (html : string) : string :=
  match exec codeRegex html with
  | Some codeMatch => "```tsx" ++ Js.nl ++ group1 codeMatch ++ Js.nl ++ "```"
  | None => "See documentation for usage examples."
  end.

(* ================================================================= *)
(** ** Exceptions *)

(** A thrown value: an [Error] object with its [message], or any other
    value, of which the handler only uses [String(value)]. *)
Inductive thrown : Type :=
| ErrorObject (message : string)
| OtherValue (asString : string).

Inductive completion (A : Type) : Type :=
| Normal (a : A)
| Throw (e : thrown).

Arguments Normal {A} a.
Arguments Throw {A} e.

Definition bind {A B : Type} (c : completion A) (k : A -> completion B)
  : completion B :=
  match c with
  | Normal a => k a
  | Throw e => Throw e
  end.

Definition tryCatch {A : Type} (body : completion A)
    (handler : thrown -> completion A) : completion A :=
  match body with
  | Normal a => Normal a
  | Throw e => handler e
  end.

Notation "x <- c ;; k" := (bind c (fun x => k))
  (at level 61, c at next level, right associativity).

(** [error instanceof Error ? error.message : String(error)] *)
Definition errorText (error : thrown) : string :=
  match error with
  | ErrorObject message => message
  | OtherValue asString => asString
  end.

(* ================================================================= *)
(** ** Tool [get_component_info] *)

(** A [Response]: [ok] is true for a status from 200 to 299; reading the
    body with [text()] gives the page or throws. *)
Record Response := { status : nat; responseText : completion string }.

Definition ok (response : Response) : bool :=
  ((200 <=? status response) && (status response <=? 299))%nat.

Definition notFoundText (component : string) : string :=
  "Error: Component '" ++ component
    ++ "' not found. Use list_components to see available components.".

Definition fetchErrorText (error : thrown) : string :=
  "Error fetching component info: " ++ errorText error.

Definition infoText (componentTitle description importStatement url : string)
  : string :=
  "# " ++ componentTitle ++ " Component" ++ Js.nl ++ Js.nl
    ++ description ++ Js.nl ++ Js.nl
    ++ "## Import" ++ Js.nl ++ "```tsx" ++ Js.nl ++ importStatement ++ Js.nl
    ++ "```" ++ Js.nl ++ Js.nl
    ++ "## Documentation" ++ Js.nl ++ "Full documentation: " ++ url
    ++ Js.nl ++ Js.nl
    ++ "For API reference and props, visit the API tab on the documentation page."
    ++ Js.nl ++ Js.nl
    ++ "## Related Resources" ++ Js.nl
    ++ "- Check the documentation page for live demos and examples" ++ Js.nl
    ++ "- Use get_customization_guide for theming and styling options" ++ Js.nl
    ++ "- Use search_components to find related components".

(** The source text of the pattern [extractImport] compiles at run time,
    around the component name without its white space. *)
Definition importPatternSource (componentName : string) : string :=
  "import\s*{[^}]*" ++ Js.replaceSpaceRuns "" componentName
    ++ "[^}]*}\s*from\s*[" ++ Js.dquote ++ "']@mui/material[" ++ Js.dquote
    ++ "']".

(** The URL the handler requests: the key goes into it as it is. *)
Definition componentUrl (component : string) : string :=
  "https://mui.com/material-ui/react-" ++ component ++ "/".

Section Host.

(** The outbound request: the response, or the exception [fetch] throws. *)
Variable fetch : string -> completion Response.

(** [html.match(new RegExp(source, flags))] for a pattern built at run
    time: the constructor throws (a name with an unbalanced parenthesis,
    say), or the match is [null] ([None]) or has [m[0]]. *)
Variable matchDynamic : string -> string -> string -> completion (option string).

Definition extractImport (html componentName : string) : completion string :=
  importMatch <- matchDynamic (importPatternSource componentName) "i" html ;;
  match importMatch with
  | Some m0 => Normal m0
  | None =>
      let pascalName := Js.replaceSpaceRuns "" componentName in
      Normal ("import { " ++ pascalName ++ " } from '@mui/material';")
  end.

Definition get_component_info (component : string) : completion ToolResult :=
  let url := componentUrl component in
  tryCatch
    (response <- fetch url ;;
     if negb (ok response) then
       Normal (textResult (notFoundText component))
     else
       html <- responseText response ;;
       let description := extractDescription html in
       let componentTitle := keyToTitle component in
       importStatement <- extractImport html componentTitle ;;
       Normal (textResult (infoText componentTitle description importStatement url)))
    (fun error => Normal (textResult (fetchErrorText error))).

End Host.

(** The six tools the server registers, as calls with their arguments. *)
Inductive toolCall : Type :=
| call_list_components
| call_get_component_info (component : string)
| call_get_customization_guide
| call_search_components (query : string)
| call_get_setup_guide
| call_get_mui_guide.

Section Server.

(** The three guide tools answer with constant texts; the texts themselves
    are parameters here. *)
Variables customizationGuide setupGuide muiGuide : string.

Variable fetch : string -> completion Response.
Variable matchDynamic : string -> string -> string -> completion (option string).

Definition callTool (call : toolCall) : completion ToolResult :=
  match call with
  | call_list_components => Normal list_components
  | call_get_component_info component =>
      get_component_info fetch matchDynamic component
  | call_get_customization_guide => Normal (textResult customizationGuide)
  | call_search_components query => Normal (search_components query)
  | call_get_setup_guide => Normal (textResult setupGuide)
  | call_get_mui_guide => Normal (textResult muiGuide)
  end.

End Server.

(** A host for the examples: one page served for every URL with the given
    status, and an import pattern that finds nothing (the pages of the
    examples hold no import statement). *)
Definition servePage (st : nat) (html : string) (url : string)
  : completion Response :=
  Normal {| status := st; responseText := Normal html |}.

Definition noImportMatch (source flags html : string)
  : completion (option string) := Normal None.

(* ================================================================= *)
(** ** Vocabulary of the properties *)

(** [sub] occurs in [s]. *)
Definition Substring (sub s : string) : Prop :=
  exists l r, s = l ++ sub ++ r.

(** The lines [list_components] joins into its answer, one per entry. *)
Definition componentLines : list string :=
  map list_components_line COMPONENTS.

(** The category of the map under a label. *)
Definition categoryOf (label : string) : list string :=
  match find (fun entry => String.eqb (fst entry) label) COMPONENT_MAP with
  | Some entry => snd entry
  | None => []
  end.

Fixpoint allChars (p : ascii -> bool) (s : string) : bool :=
  match s with
  | "" => true
  | String c s' => p c && allChars p s'
  end.

(** An uppercase letter followed by lowercase letters. *)
Definition isCapitalizedWord (w : string) : bool :=
  match w with
  | "" => false
  | String u ls => Js.isUpper u && allChars Js.isLower ls
  end.

(** The captures after the characters of [w] have been consumed. *)
Fixpoint takes (w : string) (caps : captures) : captures :=
  match w with
  | "" => caps
  | String c w' => takes w' (take c caps)
  end.

(** The string does not begin with a character of the class. *)
Definition headFails (p : cls) (s : string) : bool :=
  match s with
  | "" => true
  | String c _ => negb (p c)
  end.

(** Equality of strings up to the case of ASCII letters. *)
Definition eq_i (a b : string) : Prop := Js.toUpperCase a = Js.toUpperCase b.

(** [el] occurs in [html] at offset [n]. *)
Definition OccursAt (el html : string) (n : nat) : Prop :=
  exists pre post, html = pre ++ el ++ post /\ String.length pre = n.

(** A host whose [fetch] throws. *)
Definition fetchFails (e : thrown) (url : string) : completion Response :=
  Throw e.

Definition pageWithUsage : string :=
  "<p>Buttons allow users to take actions.</p><code>npm install</code>".

Definition pageWithoutUsage : string :=
  "<p>Buttons allow users to take actions.</p>".

(** A page with a description meta tag before a paragraph. *)
Definition metaTag : string :=
  "<meta name=" ++ Js.dquote ++ "description" ++ Js.dquote ++ " content="
    ++ Js.dquote ++ "Displays rows and columns of data." ++ Js.dquote.

Definition metaPage : string := metaTag ++ "><p>Some text</p>".

(* ================================================================= *)
(** ** Vocabulary of the further properties *)

(** ASCII text: no character from 128 on. *)
Definition isAsciiText (s : string) : bool :=
  allChars (fun c => (nat_of_ascii c <? 128)%nat) s.

(** Neither white space nor an uppercase letter. *)
Definition keyChar (c : ascii) : bool :=
  negb (Js.isSpace c) && negb (Js.isUpper c).

(** One lowercase letter or more. *)
Definition isLowerWord (w : string) : bool :=
  match w with
  | "" => false
  | String _ _ => allChars Js.isLower w
  end.

(** The string without its white-space characters. *)
Fixpoint removeSpaces (s : string) : string :=
  match s with
  | "" => ""
  | String c s' =>
      if Js.isSpace c then removeSpaces s' else String c (removeSpaces s')
  end.

(** [el] is an element with a tag name that begins with code, attributes
    or not, a text [t] of one character or more with no angle bracket in it,
    and the closing tag of a code element. *)
Definition CodeElement (el t : string) : Prop :=
  exists l1 attrs l2,
    el = l1 ++ attrs ++ ">" ++ t ++ l2
    /\ eq_i l1 "<code"
    /\ allChars (notChr ">") attrs = true
    /\ allChars (notChr "<") t = true /\ t <> ""
    /\ eq_i l2 "</code>".

(** No member is repeated. *)
Fixpoint nodupb (l : list string) : bool :=
  match l with
  | [] => true
  | x :: l' => negb (Js.has l' x) && nodupb l'
  end.


(* ================================================================= *)
(** ** The server on strings of UTF-16 code units

    The definitions above read a string as ASCII text.  Here a string is
    what the language has: a sequence of UTF-16 code units, of any value.
    The white-space class is the full class of the language and the
    patterns are matched as the language matches them; the two case
    mappings [String.prototype.toLowerCase] and [toUpperCase], which rest on
    the Unicode tables, are parameters of the functions that call them. *)

Module Utf16.

Definition ustring := list N.

(** A string literal of the source: all of them are ASCII. *)
Definition lit (s : string) : ustring :=
  map N_of_ascii (list_ascii_of_string s).

Definition nl : ustring := [10%N].
Definition dquote : ustring := [34%N].

(** The class [\s]: the white space and the line terminators of the
    language (tab, line feed, vertical tab, form feed, carriage return,
    space, no-break space, U+1680, U+2000 to U+200A, U+2028, U+2029, U+202F,
    U+205F, U+3000, U+FEFF). *)
Definition isSpace (c : N) : bool :=
  ((c =? 9) || (c =? 10) || (c =? 11) || (c =? 12) || (c =? 13) || (c =? 32)
   || (c =? 160) || (c =? 5760) || ((8192 <=? c) && (c <=? 8202))
   || (c =? 8232) || (c =? 8233) || (c =? 8239) || (c =? 8287)
   || (c =? 12288) || (c =? 65279))%N.

(** [a === b] *)
Fixpoint eqb (a b : ustring) : bool :=
  match a, b with
  | [], [] => true
  | x :: a', y :: b' => N.eqb x y && eqb a' b'
  | _, _ => false
  end.

(** [s.startsWith(p)] *)
Fixpoint startsWith (s p : ustring) {struct p} : bool :=
  match p, s with
  | [], _ => true
  | a :: p', b :: s' => N.eqb a b && startsWith s' p'
  | _ :: _, [] => false
  end.

(** [s.includes(sub)] *)
Fixpoint includes (s sub : ustring) : bool :=
  startsWith s sub ||
  match s with
  | [] => false
  | _ :: s' => includes s' sub
  end.

(** [s.charAt(0)] *)
Definition charAt0 (s : ustring) : ustring :=
  match s with
  | [] => []
  | c :: _ => [c]
  end.

(** [s.slice(1)] *)
Definition slice1 (s : ustring) : ustring :=
  match s with
  | [] => []
  | _ :: s' => s'
  end.

(** [s.split(sep)] for a separator of one code unit. *)
Fixpoint split (sep : N) (s : ustring) : list ustring :=
  match s with
  | [] => [[]]
  | c :: s' =>
      if N.eqb c sep then [] :: split sep s'
      else match split sep s' with
           | w :: ws => (c :: w) :: ws
           | [] => [[c]]
           end
  end.

(** [xs.join(sep)] *)
Fixpoint join (sep : ustring) (xs : list ustring) : ustring :=
  match xs with
  | [] => []
  | [x] => x
  | x :: xs' => x ++ sep ++ join sep xs'
  end%list.

Definition startsWithSpace (s : ustring) : bool :=
  match s with
  | [] => false
  | c :: _ => isSpace c
  end.

(** [s.replace(/\s+/g, r)] *)
Fixpoint replaceSpaceRuns (r s : ustring) : ustring :=
  match s with
  | [] => []
  | c :: s' =>
      if isSpace c then
        if startsWithSpace s' then replaceSpaceRuns r s'
        else (r ++ replaceSpaceRuns r s')%list
      else c :: replaceSpaceRuns r s'
  end.

Definition numToString (n : nat) : ustring := lit (Js.numToString n).

(** A [Set<string>] in insertion order. *)
Definition has (m : list ustring) (x : ustring) : bool := existsb (eqb x) m.

Definition add (m : list ustring) (x : ustring) : list ustring :=
  if has m x then m else (m ++ [x])%list.

(** The two tables of the source. *)
Definition COMPONENTS : list ustring := map lit COMPONENTS.

Definition COMPONENT_MAP : list (ustring * list ustring) :=
  map (fun entry : string * list string =>
         (lit (fst entry), map lit (snd entry)))
    COMPONENT_MAP.

Record ContentItem := { type : ustring; text : ustring }.
Record ToolResult := { content : list ContentItem }.

Definition textResult (t : ustring) : ToolResult :=
  {| content := [ {| type := lit "text"; text := t |} ] |}.

(** *** Regular expressions over code units *)

Module RegExp.

Definition cls := N -> bool.

Inductive item : Type :=
| One (p : cls)
| Star (p : cls)
| Plus (p : cls)
| GroupOpen
| GroupClose.

Definition regex := list item.

(** Canonicalisation under the [i] flag, as far as a pattern character
    below 128 can tell: a-z go to A-Z; a code unit from 128 on never
    canonicalises to one below 128, so it is left where it is. *)
Definition canonicalize (x : N) : N :=
  if ((97 <=? x) && (x <=? 122))%N then (x - 32)%N else x.

(** A pattern character (below 128) under the [i] flag. *)
Definition chr_i (c : N) : cls :=
  fun x => N.eqb (canonicalize x) (canonicalize c).

(** [[^c]] *)
Definition notChr (c : N) : cls := fun x => negb (N.eqb x c).

Definition lits_i (s : string) : regex := map (fun c => One (chr_i c)) (lit s).

Record captures := { whole : ustring; group1 : ustring; inGroup : bool }.

Definition noCaptures : captures :=
  {| whole := []; group1 := []; inGroup := false |}.

Definition take (c : N) (caps : captures) : captures :=
  {| whole := (whole caps ++ [c])%list;
     group1 := if inGroup caps then (group1 caps ++ [c])%list
               else group1 caps;
     inGroup := inGroup caps |}.

Definition openGroup (caps : captures) : captures :=
  {| whole := whole caps; group1 := []; inGroup := true |}.

Definition closeGroup (caps : captures) : captures :=
  {| whole := whole caps; group1 := group1 caps; inGroup := false |}.

Fixpoint star (p : cls) (k : ustring -> captures -> option captures)
    (s : ustring) (caps : captures) : option captures :=
  match s with
  | c :: s' =>
      if p c then
        match star p k s' (take c caps) with
        | Some m => Some m
        | None => k s caps
        end
      else k s caps
  | [] => k s caps
  end.

Fixpoint matchHere (r : regex) (s : ustring) (caps : captures)
  : option captures :=
  match r with
  | [] => Some caps
  | One p :: r' =>
      match s with
      | c :: s' => if p c then matchHere r' s' (take c caps) else None
      | [] => None
      end
  | Star p :: r' => star p (matchHere r') s caps
  | Plus p :: r' =>
      match s with
      | c :: s' =>
          if p c then star p (matchHere r') s' (take c caps) else None
      | [] => None
      end
  | GroupOpen :: r' => matchHere r' s (openGroup caps)
  | GroupClose :: r' => matchHere r' s (closeGroup caps)
  end.

(** [s.match(r)] for a pattern without the [g] flag. *)
Fixpoint exec (r : regex) (s : ustring) : option captures :=
  match matchHere r s noCaptures with
  | Some m => Some m
  | None =>
      match s with
      | [] => None
      | _ :: s' => exec r s'
      end
  end.

End RegExp.

Import RegExp.

(** The pattern of the description meta tag, as [metaRegex] above. *)
Definition metaRegex : regex :=
  (lits_i "<meta" ++ [Plus isSpace]
   ++ lits_i ("name=" ++ Js.dquote ++ "description" ++ Js.dquote)
   ++ [Plus isSpace]
   ++ lits_i ("content=" ++ Js.dquote)
   ++ [GroupOpen; Plus (notChr 34); GroupClose]
   ++ lits_i Js.dquote)%list.

(** [/<p[^>]*>([^<]+)<\/p>/i] *)
Definition pRegex : regex :=
  (lits_i "<p" ++ [Star (notChr 62)] ++ lits_i ">"
   ++ [GroupOpen; Plus (notChr 60); GroupClose]
   ++ lits_i "</p>")%list.

(** [/<code[^>]*>([^<]+)<\/code>/i] *)
Definition codeRegex : regex :=
  (lits_i "<code" ++ [Star (notChr 62)] ++ lits_i ">"
   ++ [GroupOpen; Plus (notChr 60); GroupClose]
   ++ lits_i "</code>")%list.

Definition extractDescription (html : ustring) : ustring :=
  match exec metaRegex html with
  | Some metaMatch => group1 metaMatch
  | None =>
      match exec pRegex html with
      | Some pMatch => group1 pMatch
      | None => lit "Component description not available"
      end
  end.

Definition extractUsage (html : ustring) : ustring :=
  match exec codeRegex html with
  | Some codeMatch =>
      (lit "```tsx" ++ nl ++ group1 codeMatch ++ nl ++ lit "```")%list
  | None => lit "See documentation for usage examples."
  end.

(** *** Exceptions and the host *)

Inductive thrown : Type :=
| ErrorObject (message : ustring)
| OtherValue (asString : ustring).

Inductive completion (A : Type) : Type :=
| Normal (a : A)
| Throw (e : thrown).

Arguments Normal {A} a.
Arguments Throw {A} e.

Definition bind {A B : Type} (c : completion A) (k : A -> completion B)
  : completion B :=
  match c with
  | Normal a => k a
  | Throw e => Throw e
  end.

Definition tryCatch {A : Type} (body : completion A)
    (handler : thrown -> completion A) : completion A :=
  match body with
  | Normal a => Normal a
  | Throw e => handler e
  end.

(** [error instanceof Error ? error.message : String(error)] *)
Definition errorText (error : thrown) : ustring :=
  match error with
  | ErrorObject message => message
  | OtherValue asString => asString
  end.

Record Response := { status : nat; responseText : completion ustring }.

Definition ok (response : Response) : bool :=
  ((200 <=? status response) && (status response <=? 299))%nat.

(** The source text of the pattern [extractImport] compiles at run time. *)
Definition importPatternSource (componentName : ustring) : ustring :=
  (lit "import\s*{[^}]*" ++ replaceSpaceRuns [] componentName
     ++ lit "[^}]*}\s*from\s*[" ++ dquote ++ lit "']@mui/material[" ++ dquote
     ++ lit "']")%list.

Section Language.

(** [String.prototype.toLowerCase] and [String.prototype.toUpperCase]. *)
Variable toLowerCase : ustring -> ustring.
Variable toUpperCase : ustring -> ustring.

Definition toKebabCase (name : ustring) : ustring :=
  replaceSpaceRuns (lit "-") (toLowerCase name).

Definition getComponentUrl (component : ustring) : ustring :=
  let kebabName := toKebabCase component in
  (lit "https://mui.com/material-ui/react-" ++ kebabName ++ lit "/")%list.

Definition capitalize (w : ustring) : ustring :=
  (toUpperCase (charAt0 w) ++ slice1 w)%list.

(** [component.split("-").map(...).join(" ")] *)
Definition keyToTitle (component : ustring) : ustring :=
  join (lit " ") (map capitalize (split 45 component)).

(** The loop over [Object.entries(map)] with its inner loop. *)
Definition categoryPass (lowerQuery : ustring)
    (map : list (ustring * list ustring)) (matches : list ustring)
  : list ustring :=
  fold_left
    (fun acc (entry : ustring * list ustring) =>
       let (category, components) := entry in
       if includes lowerQuery category
       then fold_left add components acc
       else acc)
    map matches.

(** The loop [names.forEach((component) => ...)]. *)
Definition namePass (lowerQuery : ustring) (names : list ustring)
    (matches : list ustring) : list ustring :=
  fold_left
    (fun acc component =>
       if includes (toLowerCase component) lowerQuery
       then add acc component
       else acc)
    names matches.

Definition search_matches (query : ustring) : list ustring :=
  let lowerQuery := toLowerCase query in
  namePass lowerQuery COMPONENTS (categoryPass lowerQuery COMPONENT_MAP []).

Definition search_components (query : ustring) : ToolResult :=
  let matches := search_matches query in
  if (List.length matches =? 0)%nat then
    textResult
      (lit "No components found matching '" ++ query ++ lit "'." ++ nl ++ nl
         ++ lit "Try broader terms like: form, navigation, overlay, feedback, data, layout, input, button")%list
  else
    let resultList :=
      join nl
        (map (fun name =>
                let kebab := toKebabCase name in
                let url := getComponentUrl name in
                (lit "- " ++ name ++ lit " (" ++ kebab ++ lit ")" ++ nl
                   ++ lit "  " ++ url)%list)
           matches) in
    textResult
      (lit "# Components matching " ++ dquote ++ query ++ dquote ++ lit " ("
         ++ numToString (List.length matches) ++ lit " found)" ++ nl ++ nl
         ++ resultList ++ nl ++ nl
         ++ lit "Use get_component_info with the kebab-case name for details.")%list.

Section Host.

Variable fetch : ustring -> completion Response.

(** [html.match(new RegExp(source, flags))]: the constructor throws, or
    the match is [null] or has [m[0]]. *)
Variable matchDynamic
  : ustring -> ustring -> ustring -> completion (option ustring).

Definition extractImport (html componentName : ustring)
  : completion ustring :=
  bind (matchDynamic (importPatternSource componentName) (lit "i") html)
    (fun importMatch =>
       match importMatch with
       | Some m0 => Normal m0
       | None =>
           let pascalName := replaceSpaceRuns [] componentName in
           Normal (lit "import { " ++ pascalName
                     ++ lit " } from '@mui/material';")%list
       end).

Definition get_component_info (component : ustring)
  : completion ToolResult :=
  let url :=
    (lit "https://mui.com/material-ui/react-" ++ component ++ lit "/")%list in
  tryCatch
    (bind (fetch url) (fun response =>
       if negb (ok response) then
         Normal (textResult
                   (lit "Error: Component '" ++ component
                      ++ lit "' not found. Use list_components to see available components.")%list)
       else
         bind (responseText response) (fun html =>
           let description := extractDescription html in
           let componentTitle := keyToTitle component in
           bind (extractImport html componentTitle) (fun importStatement =>
             Normal (textResult
               (lit "# " ++ componentTitle ++ lit " Component" ++ nl ++ nl
                  ++ description ++ nl ++ nl
                  ++ lit "## Import" ++ nl ++ lit "```tsx" ++ nl
                  ++ importStatement ++ nl ++ lit "```" ++ nl ++ nl
                  ++ lit "## Documentation" ++ nl
                  ++ lit "Full documentation: " ++ url ++ nl ++ nl
                  ++ lit "For API reference and props, visit the API tab on the documentation page."
                  ++ nl ++ nl
                  ++ lit "## Related Resources" ++ nl
                  ++ lit "- Check the documentation page for live demos and examples"
                  ++ nl
                  ++ lit "- Use get_customization_guide for theming and styling options"
                  ++ nl
                  ++ lit "- Use search_components to find related components")%list)))))
    (fun error =>
       Normal (textResult
                 (lit "Error fetching component info: " ++ errorText error)%list)).

End Host.

End Language.

(** The case mappings on ASCII text: what the mappings of the language do
    to a string with no code unit from 128 on. *)
Definition asciiLower (s : ustring) : ustring :=
  map (fun c => if ((65 <=? c) && (c <=? 90))%N then (c + 32)%N else c) s.

Definition asciiUpper (s : ustring) : ustring :=
  map (fun c => if ((97 <=? c) && (c <=? 122))%N then (c - 32)%N else c) s.

(** A lower-casing that also knows the Kelvin sign, U+212A, whose lower
    case is k. *)
Definition kelvinLower (s : ustring) : ustring :=
  map (fun c => if (c =? 8490)%N then 107%N else c) (asciiLower s).

(** Hosts for the examples. *)
Definition servePage (st : nat) (html : ustring) (url : ustring)
  : completion Response :=
  Normal {| status := st; responseText := Normal html |}.

Definition noImportMatch (source flags html : ustring)
  : completion (option ustring) := Normal None.

(** *** Vocabulary of the properties *)

(** [sub] occurs in [s]. *)
Definition Substring (sub s : ustring) : Prop :=
  exists l r, s = (l ++ sub ++ r)%list.

(** The captures after the code units of [w] have been consumed. *)
Fixpoint takes (w : ustring) (caps : captures) : captures :=
  match w with
  | [] => caps
  | c :: w' => takes w' (take c caps)
  end.

(** The string does not begin with a code unit of the class. *)
Definition headFails (p : cls) (s : ustring) : bool :=
  match s with
  | [] => true
  | c :: _ => negb (p c)
  end.

(** Equality of strings up to the case of the letters a-z and A-Z. *)
Definition eq_i (a b : ustring) : Prop := map canonicalize a = map canonicalize b.

(** [tag] is a description meta tag, from its opening angle bracket to the
    quote that closes the content attribute, and [v] is that content: the
    letters in any case, white space of the class [\s] before each
    attribute, the content being one code unit or more, none of them a
    double quote. *)
Definition MetaDescription (tag v : ustring) : Prop :=
  exists l1 ws1 l2 ws2 l3,
    tag = (l1 ++ ws1 ++ l2 ++ ws2 ++ l3 ++ v ++ dquote)%list
    /\ eq_i l1 (lit "<meta")
    /\ forallb isSpace ws1 = true /\ ws1 <> []
    /\ eq_i l2 (lit "name=" ++ dquote ++ lit "description" ++ dquote)%list
    /\ forallb isSpace ws2 = true /\ ws2 <> []
    /\ eq_i l3 (lit "content=" ++ dquote)%list
    /\ forallb (notChr 34) v = true /\ v <> [].

(** [el] is an element with a tag name that begins with p, attributes or
    not, a text [t] of one code unit or more with no opening angle bracket
    in it, and the closing tag of a paragraph. *)
Definition Paragraph (el t : ustring) : Prop :=
  exists l1 attrs l2,
    el = (l1 ++ attrs ++ lit ">" ++ t ++ l2)%list
    /\ eq_i l1 (lit "<p")
    /\ forallb (notChr 62) attrs = true
    /\ forallb (notChr 60) t = true /\ t <> []
    /\ eq_i l2 (lit "</p>").

(** [el] occurs in [html] at offset [n]. *)
Definition OccursAt (el html : ustring) (n : nat) : Prop :=
  exists pre post, html = (pre ++ el ++ post)%list /\ List.length pre = n.

(** Pages for the examples: a description meta tag before a paragraph,
    with a space and with a no-break space (U+00A0) after the tag name. *)
Definition metaTag : ustring :=
  (lit "<meta name=" ++ dquote ++ lit "description" ++ dquote
     ++ lit " content=" ++ dquote
     ++ lit "Displays rows and columns of data." ++ dquote)%list.

Definition metaPage : ustring := (metaTag ++ lit "><p>Some text</p>")%list.

Definition nbspMetaTag : ustring :=
  (lit "<meta" ++ [160%N] ++ lit "name=" ++ dquote ++ lit "description"
     ++ dquote ++ lit " content=" ++ dquote ++ lit "A" ++ dquote)%list.

Definition nbspMetaPage : ustring := (nbspMetaTag ++ lit "><p>B</p>")%list.

(** A page whose only paragraph is the sentence [extractUsage] falls back
    to, and two pages that differ in their code element only. *)
Definition usageSentencePage : ustring :=
  lit "<p>See documentation for usage examples.</p>".

Definition pageWithUsage : ustring :=
  lit "<p>Buttons allow users to take actions.</p><code>npm install</code>".

Definition pageWithoutUsage : ustring :=
  lit "<p>Buttons allow users to take actions.</p>".

(** The two names of the category map that the catalog does not have. *)
Definition strayNames : list ustring := [lit "Progress"; lit "No SSR"].

End Utf16.

(** ** From the ASCII layer to code units *)

Definition liftResult (r : ToolResult) : Utf16.ToolResult :=
  {| Utf16.content :=
       map (fun item =>
              {| Utf16.type := Utf16.lit (type item);
                 Utf16.text := Utf16.lit (text item) |})
         (content r) |}.

Definition liftThrown (e : thrown) : Utf16.thrown :=
  match e with
  | ErrorObject message => Utf16.ErrorObject (Utf16.lit message)
  | OtherValue asString => Utf16.OtherValue (Utf16.lit asString)
  end.

Definition liftCompletion (c : completion ToolResult)
  : Utf16.completion Utf16.ToolResult :=
  match c with
  | Normal r => Utf16.Normal (liftResult r)
  | Throw e => Utf16.Throw (liftThrown e)
  end.

(** A host whose [fetch] throws, on code units. *)
Definition fetchFailsU (e : Utf16.thrown) (url : Utf16.ustring)
  : Utf16.completion Utf16.Response :=
  Utf16.Throw e.

(* ================================================================= *)
(** * Properties *)

Ltac by_char c :=
  destruct c as [[] [] [] [] [] [] [] []]; try discriminate; try reflexivity;
  try (split; [reflexivity | split; [reflexivity | discriminate]]).

(** ** The tools on a few inputs *)

Example toKebabCase_examples :
  toKebabCase "Text Field" = "text-field"
  /\ toKebabCase "CSS Baseline" = "css-baseline"
  /\ toKebabCase "text-field" = "text-field"
  /\ getComponentUrl "App Bar" = "https://mui.com/material-ui/react-app-bar/".
Proof. repeat split. Qed.

Example keyToTitle_examples :
  keyToTitle "app-bar" = "App Bar"
  /\ keyToTitle "css-baseline" = "Css Baseline"
  /\ keyToTitle "nonexistent-component" = "Nonexistent Component"
  /\ keyToTitle "" = "".
Proof. repeat split. Qed.

Example search_button :
  search_matches "button"
  = ["Button"; "Floating Action Button"; "Button Group"; "Toggle Button";
     "Radio Button"].
Proof. vm_compute. reflexivity. Qed.

Example search_sentence :
  search_matches "I need a FORM"
  = ["Text Field"; "Select"; "Checkbox"; "Radio Button"; "Switch"; "Slider";
     "Autocomplete"; "Toggle Button"].
Proof. vm_compute. reflexivity. Qed.

Example search_nothing :
  search_components "zzz-nonexistent"
  = textResult (search_empty_text "zzz-nonexistent").
Proof. vm_compute. reflexivity. Qed.

Example extractDescription_examples :
  extractDescription metaPage = "Displays rows and columns of data."
  /\ extractDescription "<P class='lead'>Some text</P>" = "Some text"
  /\ extractDescription "<p><b>Some</b> text</p>"
     = "Component description not available"
  /\ extractUsage "<pre><code class='tsx'>npm install</code></pre>"
     = "```tsx" ++ Js.nl ++ "npm install" ++ Js.nl ++ "```".
Proof. vm_compute. repeat split. Qed.

(** ** Sets and substrings *)

Lemma has_In (m : Js.SetOfString) (x : string) :
  Js.has m x = true <-> In x m.
Proof.
  unfold Js.has. rewrite existsb_exists. split.
  - intros [y [Hy He]]. apply String.eqb_eq in He. now subst.
  - intros H. exists x. split; [assumption | apply String.eqb_refl].
Qed.

Lemma startsWith_iff (s p : string) :
  Js.startsWith s p = true <-> exists r, s = p ++ r.
Proof.
  revert s. induction p as [| a p IH]; intros s; simpl.
  - split; [intros _; now exists s | reflexivity].
  - destruct s as [| b s].
    + split; [discriminate | intros [r Hr]; discriminate].
    + rewrite andb_true_iff, Ascii.eqb_eq, IH. split.
      * intros [-> [r ->]]. now exists r.
      * intros [r Hr]. injection Hr as -> ->. split; [reflexivity | now exists r].
Qed.

Lemma includes_iff (s sub : string) :
  Js.includes s sub = true <-> Substring sub s.
Proof.
  unfold Substring. induction s as [| c s IH].
  - simpl. rewrite orb_false_r, startsWith_iff. split.
    + intros [r Hr]. now exists "", r.
    + intros [l [r H]]. destruct l; [now exists r | discriminate].
  - cbn [Js.includes]. rewrite orb_true_iff, startsWith_iff, IH. split.
    + intros [[r Hr] | [l [r Hr]]].
      * now exists "", r.
      * exists (String c l), r. simpl. now rewrite Hr.
    + intros [l [r H]]. destruct l as [| c' l].
      * left. now exists r.
      * right. simpl in H. injection H as _ H. now exists l, r.
Qed.

(** ** The catalog tools on the tables of the source *)

Lemma not_In_by_has (m : list string) (x : string) :
  Js.has m x = false -> ~ In x m.
Proof.
  intros H Hin. apply has_In in Hin. congruence.
Qed.

(** C2, as the spec has it, fails: the catalog the tool enumerates has 56
    entries, not 54. *)
Lemma list_components_length_not_54 :
  List.length componentLines <> 54
  /\ list_components <>
     textResult
       ("# Material UI Components (54 total)" ++ Js.nl ++ Js.nl
          ++ Js.join Js.nl componentLines ++ Js.nl ++ Js.nl
          ++ "Use get_component_info with the kebab-case name to get details."
          ++ Js.nl ++ Js.nl
          ++ "For comprehensive MUI documentation guidance, use get_mui_guide.").
Proof.
  split.
  - vm_compute. discriminate.
  - intros H. vm_compute in H. discriminate H.
Qed.

(** C2, amended. [list_components] is a constant: its answer announces 56
    components and lists 56 lines, the i-th line being that of the i-th
    catalog entry, from "Accordion" to "Typography". *)
Theorem list_components_enumerates_catalog :
  List.length componentLines = 56
  /\ (forall i,
        nth_error componentLines i
        = option_map list_components_line (nth_error COMPONENTS i))
  /\ hd_error componentLines = Some "- Accordion (accordion)"
  /\ nth_error componentLines 55 = Some "- Typography (typography)"
  /\ list_components =
     textResult
       ("# Material UI Components (56 total)" ++ Js.nl ++ Js.nl
          ++ Js.join Js.nl componentLines ++ Js.nl ++ Js.nl
          ++ "Use get_component_info with the kebab-case name to get details."
          ++ Js.nl ++ Js.nl
          ++ "For comprehensive MUI documentation guidance, use get_mui_guide.").
Proof.
  split; [reflexivity |]. split.
  - intros i. unfold componentLines. apply nth_error_map.
  - split; [vm_compute; reflexivity |].
    split; vm_compute; reflexivity.
Qed.

(** C6. The set built for the query "form" holds the eight components of
    the form category, and every member of it is in that category or has
    "form" in its lowercased name. *)
Theorem search_form :
  (forall c,
      In c ["Text Field"; "Select"; "Checkbox"; "Radio Button"; "Switch";
            "Slider"; "Autocomplete"; "Toggle Button"] ->
      In c (search_matches "form"))
  /\ (forall c,
        In c (search_matches "form") ->
        In c (categoryOf "form")
        \/ Substring "form" (Js.toLowerCase c))
  /\ search_components "form"
     = textResult (search_found_text "form" (search_matches "form")).
Proof.
  assert (E : search_matches "form"
              = ["Text Field"; "Select"; "Checkbox"; "Radio Button"; "Switch";
                 "Slider"; "Autocomplete"; "Toggle Button"])
    by (vm_compute; reflexivity).
  split; [| split].
  - intros c H. rewrite E. exact H.
  - intros c H. left. rewrite E in H. exact H.
  - unfold search_components. rewrite E. reflexivity.
Qed.

Lemma search_form_witness :
  In "Slider" (search_matches "form")
  /\ (In "Slider" (categoryOf "form")
      \/ Substring "form" (Js.toLowerCase "Slider")).
Proof.
  assert (H : In "Slider" (search_matches "form")).
  { apply (proj1 search_form). simpl. tauto. }
  split; [exact H | exact (proj1 (proj2 search_form) "Slider" H)].
Defined.

(** C8. For the empty query no category label occurs in the query and the
    empty string occurs in every name: the set is the whole catalog, in its
    order, and the tool answers with the formatted list, not with the hint. *)
Theorem search_empty_query :
  search_matches "" = COMPONENTS
  /\ (forall category components,
        In (category, components) COMPONENT_MAP -> ~ Substring category "")
  /\ (forall c, In c COMPONENTS -> Substring "" (Js.toLowerCase c))
  /\ search_components "" = textResult (search_found_text "" COMPONENTS)
  /\ search_components "" <> textResult (search_empty_text "").
Proof.
  split; [vm_compute; reflexivity |]. split; [| split; [| split]].
  - intros category components Hin [l [r H]].
    destruct l; [| discriminate].
    destruct category as [| a category]; [| discriminate].
    simpl in Hin.
    repeat (destruct Hin as [Hin | Hin]; [discriminate Hin |]). exact Hin.
  - intros c _. exists "", (Js.toLowerCase c). reflexivity.
  - vm_compute. reflexivity.
  - intros H. vm_compute in H. discriminate H.
Qed.

Lemma search_empty_query_witness :
  ~ Substring "form" "" /\ Substring "" (Js.toLowerCase "Tabs").
Proof.
  split.
  - apply (proj1 (proj2 search_empty_query)
             "form" ["Text Field"; "Select"; "Checkbox"; "Radio Button";
                     "Switch"; "Slider"; "Autocomplete"; "Toggle Button"]).
    simpl. tauto.
  - apply (proj1 (proj2 (proj2 search_empty_query)) "Tabs").
    vm_compute. tauto.
Defined.

(** C9. The queries "feedback" and "utility" put "Progress" and "No SSR"
    into the result, and neither is a name of the catalog: a search result
    is not always made of catalog components. *)
Theorem search_returns_names_outside_catalog :
  In "Progress" (search_matches "feedback")
  /\ ~ In "Progress" COMPONENTS
  /\ In "No SSR" (search_matches "utility")
  /\ ~ In "No SSR" COMPONENTS
  /\ Substring ("- Progress (progress)" ++ Js.nl)
       (text (hd {| type := ""; text := "" |}
                (content (search_components "feedback"))))
  /\ Substring ("- No SSR (no-ssr)" ++ Js.nl)
       (text (hd {| type := ""; text := "" |}
                (content (search_components "utility"))))
  /\ ~ (forall query c, In c (search_matches query) -> In c COMPONENTS).
Proof.
  assert (H1 : In "Progress" (search_matches "feedback"))
    by (vm_compute; tauto).
  assert (H2 : ~ In "Progress" COMPONENTS)
    by (apply not_In_by_has; vm_compute; reflexivity).
  split; [exact H1 |]. split; [exact H2 |].
  split; [vm_compute; tauto |].
  split; [apply not_In_by_has; vm_compute; reflexivity |].
  split; [apply includes_iff; vm_compute; reflexivity |].
  split; [apply includes_iff; vm_compute; reflexivity |].
  intros H. exact (H2 (H "feedback" "Progress" H1)).
Qed.

(** ** The handler of [get_component_info] *)

Section HandlerFacts.

Variable fetch : string -> completion Response.
Variable matchDynamic : string -> string -> string -> completion (option string).

Lemma get_component_info_unfold (component : string) :
  get_component_info fetch matchDynamic component =
  match fetch (componentUrl component) with
  | Throw e => Normal (textResult (fetchErrorText e))
  | Normal response =>
      if ok response then
        match responseText response with
        | Throw e => Normal (textResult (fetchErrorText e))
        | Normal html =>
            match extractImport matchDynamic html (keyToTitle component) with
            | Throw e => Normal (textResult (fetchErrorText e))
            | Normal importStatement =>
                Normal (textResult
                          (infoText (keyToTitle component)
                             (extractDescription html) importStatement
                             (componentUrl component)))
            end
        end
      else Normal (textResult (notFoundText component))
  end.
Proof.
  unfold get_component_info, tryCatch, bind.
  destruct (fetch (componentUrl component)) as [response | e]; [| reflexivity].
  destruct (ok response); [| reflexivity]. cbn [negb].
  destruct (responseText response) as [html | e]; [| reflexivity].
  destruct (extractImport matchDynamic html (keyToTitle component));
    reflexivity.
Qed.

(** Whatever the host does, the handler completes normally, with one of its
    three texts. *)
Lemma get_component_info_returns (component : string) :
  exists t, get_component_info fetch matchDynamic component
            = Normal (textResult t).
Proof.
  rewrite get_component_info_unfold.
  destruct (fetch (componentUrl component)) as [response | e]; [| eauto].
  destruct (ok response); [| eauto].
  destruct (responseText response) as [html | e]; [| eauto].
  destruct (extractImport matchDynamic html (keyToTitle component)); eauto.
Qed.

End HandlerFacts.

(** C4. When the response to the request for a key is not OK, whatever its
    status, the handler completes normally with the not-found text for that
    key, which points to [list_components]. *)
Theorem get_component_info_not_found
    (fetch : string -> completion Response)
    (matchDynamic : string -> string -> string -> completion (option string))
    (component : string) (response : Response) :
  fetch (componentUrl component) = Normal response ->
  ok response = false ->
  get_component_info fetch matchDynamic component
  = Normal (textResult
              ("Error: Component '" ++ component
                 ++ "' not found. Use list_components to see available components.")).
Proof.
  intros Hf Hok. rewrite get_component_info_unfold, Hf, Hok. reflexivity.
Qed.

Lemma get_component_info_not_found_witness :
  get_component_info (servePage 404 "") noImportMatch "nonexistent-component"
  = Normal (textResult
              "Error: Component 'nonexistent-component' not found. Use list_components to see available components.")
  /\ get_component_info (servePage 500 "<p>x</p>") noImportMatch "nonexistent-component"
     = get_component_info (servePage 404 "") noImportMatch "nonexistent-component".
Proof.
  split.
  - apply (get_component_info_not_found (servePage 404 "") noImportMatch
             "nonexistent-component"
             {| status := 404; responseText := Normal "" |});
      reflexivity.
  - rewrite (get_component_info_not_found (servePage 404 "") noImportMatch
               "nonexistent-component"
               {| status := 404; responseText := Normal "" |});
      [| reflexivity | reflexivity].
    apply (get_component_info_not_found (servePage 500 "<p>x</p>") noImportMatch
             "nonexistent-component"
             {| status := 500; responseText := Normal "<p>x</p>" |});
      reflexivity.
Defined.



(** ** Key and title *)

Lemma upper_lower_upper (u : ascii) :
  Js.isUpper u = true -> Js.charToUpper (Js.charToLower u) = u.
Proof. by_char u. Qed.

Lemma lower_of_upper_isLower (u : ascii) :
  Js.isUpper u = true -> Js.isLower (Js.charToLower u) = true.
Proof. by_char u. Qed.

Lemma isLower_facts (c : ascii) :
  Js.isLower c = true ->
  Js.charToLower c = c /\ Js.isSpace c = false /\ c <> "-"%char.
Proof. by_char c. Qed.

Lemma toLowerCase_app (a b : string) :
  Js.toLowerCase (a ++ b) = Js.toLowerCase a ++ Js.toLowerCase b.
Proof.
  induction a as [| c a IH]; simpl; [reflexivity | now rewrite IH].
Qed.

Lemma toLowerCase_lower (s : string) :
  allChars Js.isLower s = true -> Js.toLowerCase s = s.
Proof.
  induction s as [| c s IH]; simpl; [reflexivity |].
  rewrite andb_true_iff. intros [Hc Hs].
  destruct (isLower_facts c Hc) as [-> _]. now rewrite IH.
Qed.

Lemma toLowerCase_capitalized (w : string) :
  isCapitalizedWord w = true ->
  allChars Js.isLower (Js.toLowerCase w) = true
  /\ Js.toLowerCase w <> ""
  /\ capitalize (Js.toLowerCase w) = w.
Proof.
  destruct w as [| u ls]; [discriminate |]. simpl.
  rewrite andb_true_iff. intros [Hu Hl].
  rewrite (toLowerCase_lower ls Hl), (lower_of_upper_isLower u Hu), Hl.
  split; [reflexivity |]. split; [discriminate |].
  unfold capitalize. simpl. now rewrite (upper_lower_upper u Hu).
Qed.

(** White-space runs of a string of lowercase words. *)
Lemma replaceSpaceRuns_lower (r w : string) :
  allChars Js.isLower w = true -> Js.replaceSpaceRuns r w = w.
Proof.
  induction w as [| c w IH]; simpl; [reflexivity |].
  rewrite andb_true_iff. intros [Hc Hw].
  destruct (isLower_facts c Hc) as [_ [-> _]]. now rewrite IH.
Qed.

Lemma replaceSpaceRuns_word_space (r w rest : string) :
  allChars Js.isLower w = true ->
  Js.startsWithSpace rest = false ->
  Js.replaceSpaceRuns r (w ++ " " ++ rest)
  = w ++ r ++ Js.replaceSpaceRuns r rest.
Proof.
  intros Hw Hr. change (" " ++ rest) with (String " " rest).
  induction w as [| c w IH].
  - simpl. now rewrite Hr.
  - simpl in Hw. apply andb_true_iff in Hw as [Hc Hw]. simpl.
    destruct (isLower_facts c Hc) as [_ [-> _]]. now rewrite (IH Hw).
Qed.

Lemma startsWithSpace_lower_app (w rest : string) :
  allChars Js.isLower w = true -> w <> "" ->
  Js.startsWithSpace (w ++ rest) = false.
Proof.
  destruct w as [| c w]; [congruence |]. simpl.
  rewrite andb_true_iff. intros [Hc _] _.
  now destruct (isLower_facts c Hc) as [_ [-> _]].
Qed.

(** Splitting at hyphens a string of lowercase words. *)
Lemma split_lower (w : string) :
  allChars Js.isLower w = true -> Js.split "-" w = [w].
Proof.
  induction w as [| c w IH]; simpl; [reflexivity |].
  rewrite andb_true_iff. intros [Hc Hw].
  destruct (isLower_facts c Hc) as [_ [_ Hn]].
  apply Ascii.eqb_neq in Hn. rewrite Hn, (IH Hw). reflexivity.
Qed.

Lemma split_word_hyphen (w rest : string) :
  allChars Js.isLower w = true ->
  Js.split "-" (w ++ "-" ++ rest) = w :: Js.split "-" rest.
Proof.
  change ("-" ++ rest) with (String "-" rest).
  induction w as [| c w IH]; simpl; [reflexivity |].
  rewrite andb_true_iff. intros [Hc Hw].
  destruct (isLower_facts c Hc) as [_ [_ Hn]].
  apply Ascii.eqb_neq in Hn. rewrite Hn, (IH Hw). reflexivity.
Qed.

Lemma join_cons2 (sep a b : string) (l : list string) :
  Js.join sep (a :: b :: l) = a ++ sep ++ Js.join sep (b :: l).
Proof. reflexivity. Qed.

(** The key of a display name made of capitalized words: the lowercased
    words, joined with hyphens. *)
Lemma toKebabCase_words (w : string) (ws : list string) :
  Forall (fun x => isCapitalizedWord x = true) (w :: ws) ->
  toKebabCase (Js.join " " (w :: ws))
  = Js.join "-" (map Js.toLowerCase (w :: ws)).
Proof.
  revert w. induction ws as [| w' ws IH]; intros w H.
  - inversion H as [| ? ? Hw _]; subst.
    destruct (toLowerCase_capitalized w Hw) as [Hl _].
    unfold toKebabCase. simpl. now apply replaceSpaceRuns_lower.
  - inversion H as [| ? ? Hw H']; subst.
    destruct (toLowerCase_capitalized w Hw) as [Hl _].
    assert (Hw' : isCapitalizedWord w' = true) by now inversion H'.
    destruct (toLowerCase_capitalized w' Hw') as [Hl' [Hne' _]].
    specialize (IH w' H'). unfold toKebabCase in *.
    rewrite join_cons2, !toLowerCase_app.
    change (Js.toLowerCase " ") with " ".
    rewrite replaceSpaceRuns_word_space, IH; [reflexivity | exact Hl |].
    destruct ws as [| w'' ws].
    + simpl. clear - Hl'. destruct (Js.toLowerCase w') as [| c l]; [reflexivity |].
      simpl in *. apply andb_true_iff in Hl' as [Hc _].
      now destruct (isLower_facts c Hc) as [_ [-> _]].
    + rewrite join_cons2, toLowerCase_app.
      now apply startsWithSpace_lower_app.
Qed.

Lemma split_join_lower (w : string) (ws : list string) :
  Forall (fun x => allChars Js.isLower x = true) (w :: ws) ->
  Js.split "-" (Js.join "-" (w :: ws)) = w :: ws.
Proof.
  revert w. induction ws as [| w' ws IH]; intros w H;
    inversion H as [| ? ? Hw H']; subst.
  - simpl. now apply split_lower.
  - rewrite join_cons2, split_word_hyphen, (IH w' H'); [reflexivity | exact Hw].
Qed.

Lemma capitalize_lowercased (l : list string) :
  Forall (fun w => isCapitalizedWord w = true) l ->
  map capitalize (map Js.toLowerCase l) = l.
Proof.
  induction 1 as [| x l Hx Hl IH]; [reflexivity |].
  cbn [map]. rewrite IH.
  now destruct (toLowerCase_capitalized x Hx) as [_ [_ ->]].
Qed.

Lemma lowercased_words (l : list string) :
  Forall (fun w => isCapitalizedWord w = true) l ->
  Forall (fun x => allChars Js.isLower x = true) (map Js.toLowerCase l).
Proof.
  induction 1 as [| x l Hx Hl IH]; cbn [map]; constructor.
  - now destruct (toLowerCase_capitalized x Hx) as [-> _].
  - exact IH.
Qed.

(** C7. For a display name made of capitalized words (an uppercase letter
    followed by lowercase letters) separated by single spaces, the title
    derived from the key of the name is the name. *)
Theorem keyToTitle_toKebabCase (words : list string) :
  Forall (fun w => isCapitalizedWord w = true) words ->
  keyToTitle (toKebabCase (Js.join " " words)) = Js.join " " words.
Proof.
  intros H. destruct words as [| w ws]; [reflexivity |].
  rewrite (toKebabCase_words w ws H). unfold keyToTitle.
  pose proof (lowercased_words _ H) as Hl.
  pose proof (capitalize_lowercased _ H) as Hc.
  cbn [map] in Hl, Hc |- *.
  rewrite (split_join_lower _ _ Hl). cbn [map]. now rewrite Hc.
Qed.

Lemma keyToTitle_toKebabCase_witness :
  toKebabCase "Floating Action Button" = "floating-action-button"
  /\ keyToTitle (toKebabCase "Floating Action Button")
     = "Floating Action Button".
Proof.
  split; [reflexivity |].
  apply (keyToTitle_toKebabCase ["Floating"; "Action"; "Button"]).
  repeat constructor.
Defined.

(** ** The matcher against a declarative reading of the patterns *)

Lemma append_assoc_s (a b c : string) : (a ++ b) ++ c = a ++ b ++ c.
Proof.
  induction a as [| x a IH]; simpl; [reflexivity | now rewrite IH].
Qed.

Lemma append_nil_r_s (a : string) : a ++ "" = a.
Proof.
  induction a as [| x a IH]; simpl; [reflexivity | now rewrite IH].
Qed.

Lemma inGroup_takes (w : string) (caps : captures) :
  inGroup (takes w caps) = inGroup caps.
Proof.
  revert caps. induction w as [| c w IH]; intros caps; simpl;
    [reflexivity | now rewrite IH].
Qed.

Lemma group1_takes (w : string) (caps : captures) :
  group1 (takes w caps)
  = if inGroup caps then group1 caps ++ w else group1 caps.
Proof.
  revert caps. induction w as [| c w IH]; intros caps; simpl.
  - destruct (inGroup caps); [now rewrite append_nil_r_s | reflexivity].
  - rewrite IH. simpl. destruct (inGroup caps); [| reflexivity].
    now rewrite append_assoc_s.
Qed.

Lemma star_sound p k s caps m :
  star p k s caps = Some m ->
  exists w s', s = w ++ s' /\ allChars p w = true
               /\ k s' (takes w caps) = Some m.
Proof.
  revert caps. induction s as [| c s IH]; intros caps H; simpl in H.
  - exists "", "". auto.
  - destruct (p c) eqn:E.
    + destruct (star p k s (take c caps)) as [m' |] eqn:E2.
      * injection H as ->. apply IH in E2 as (w & s' & -> & Hw & Hk).
        exists (String c w), s'. simpl. rewrite E, Hw. auto.
      * exists "", (String c s). auto.
    + exists "", (String c s). auto.
Qed.

Lemma star_greedy p k w s' caps m :
  allChars p w = true -> headFails p s' = true ->
  k s' (takes w caps) = Some m ->
  star p k (w ++ s') caps = Some m.
Proof.
  revert caps. induction w as [| c w IH]; intros caps Hw Hs Hk; simpl in *.
  - destruct s' as [| c s']; [exact Hk |]. simpl in *.
    apply negb_true_iff in Hs. now rewrite Hs.
  - apply andb_true_iff in Hw as [Hc Hw].
    now rewrite Hc, (IH (take c caps) Hw Hs Hk).
Qed.

Lemma matchHere_nil s caps : matchHere [] s caps = Some caps.
Proof. reflexivity. Qed.

Lemma matchHere_open r s caps :
  matchHere (GroupOpen :: r) s caps = matchHere r s (openGroup caps).
Proof. reflexivity. Qed.

Lemma matchHere_close r s caps :
  matchHere (GroupClose :: r) s caps = matchHere r s (closeGroup caps).
Proof. reflexivity. Qed.

Lemma matchHere_star_sound p r s caps m :
  matchHere (Star p :: r) s caps = Some m ->
  exists w s', s = w ++ s' /\ allChars p w = true
               /\ matchHere r s' (takes w caps) = Some m.
Proof. apply star_sound. Qed.

Lemma matchHere_star_greedy p r w s' caps m :
  allChars p w = true -> headFails p s' = true ->
  matchHere r s' (takes w caps) = Some m ->
  matchHere (Star p :: r) (w ++ s') caps = Some m.
Proof. apply star_greedy. Qed.

Lemma matchHere_plus_sound p r s caps m :
  matchHere (Plus p :: r) s caps = Some m ->
  exists w s', s = w ++ s' /\ allChars p w = true /\ w <> ""
               /\ matchHere r s' (takes w caps) = Some m.
Proof.
  intros H. cbn [matchHere] in H. destruct s as [| c s]; [discriminate |].
  destruct (p c) eqn:E; [| discriminate].
  apply star_sound in H as (w & s' & -> & Hw & Hk).
  exists (String c w), s'. simpl. rewrite E, Hw.
  repeat split; [discriminate | exact Hk].
Qed.

Lemma matchHere_plus_greedy p r w s' caps m :
  allChars p w = true -> w <> "" -> headFails p s' = true ->
  matchHere r s' (takes w caps) = Some m ->
  matchHere (Plus p :: r) (w ++ s') caps = Some m.
Proof.
  intros Hw Hne Hs Hk. destruct w as [| c w]; [congruence |].
  simpl in Hw. apply andb_true_iff in Hw as [Hc Hw].
  cbn [matchHere append]. rewrite Hc. now apply star_greedy.
Qed.

Lemma matchHere_lits_sound l r s caps m :
  matchHere (lits_i l ++ r)%list s caps = Some m ->
  exists t s', s = t ++ s' /\ eq_i t l
               /\ matchHere r s' (takes t caps) = Some m.
Proof.
  revert s caps. induction l as [| a l IH]; intros s caps H.
  - exists "", s. repeat split. exact H.
  - cbn [lits_i app matchHere] in H. destruct s as [| c s]; [discriminate |].
    destruct (chr_i a c) eqn:E; [| discriminate].
    apply IH in H as (t & s' & -> & Ht & Hm).
    exists (String c t), s'. split; [reflexivity |]. split; [| exact Hm].
    unfold eq_i in *. cbn [Js.toUpperCase]. rewrite Ht. f_equal.
    now apply Ascii.eqb_eq.
Qed.

Lemma matchHere_lits l r t s' caps :
  eq_i t l ->
  matchHere (lits_i l ++ r)%list (t ++ s') caps
  = matchHere r s' (takes t caps).
Proof.
  revert t caps. induction l as [| a l IH]; intros t caps H;
    destruct t as [| c t]; unfold eq_i in H; cbn [Js.toUpperCase] in H;
    try discriminate.
  - reflexivity.
  - injection H as Hc Ht. cbn [lits_i app matchHere append takes].
    unfold chr_i at 1. rewrite Hc, Ascii.eqb_refl. now apply IH.
Qed.

(** A string that equals, up to case, one that begins with a character
    whose every case variant is outside the class, does not begin with a
    character of the class. *)
Lemma headFails_eq_i (p : cls) (l rest : string) (c0 : ascii) (l0 : string) :
  eq_i l (String c0 l0) ->
  (forall c, Js.charToUpper c = Js.charToUpper c0 -> p c = false) ->
  headFails p (l ++ rest) = true.
Proof.
  unfold eq_i. destruct l as [| c l]; cbn [Js.toUpperCase]; [discriminate |].
  intros H Hp. injection H as Hc _. simpl. now rewrite (Hp c Hc).
Qed.

(** [s.match(r)] finds the leftmost match: generic facts for a pattern [r]
    whose matches at one position are described by [D element group]. *)
Section Leftmost.

Variable r : regex.
Variable D : string -> string -> Prop.

Hypothesis sound : forall s m,
  matchHere r s noCaptures = Some m ->
  exists el rest, s = el ++ rest /\ D el (group1 m).

Hypothesis complete : forall el v rest,
  D el v ->
  exists m, matchHere r (el ++ rest) noCaptures = Some m /\ group1 m = v.

Lemma exec_leftmost (pre el v post : string) :
  D el v ->
  (forall pre' el' v' post',
      D el' v' -> pre ++ el ++ post = pre' ++ el' ++ post' ->
      String.length pre <= String.length pre') ->
  exists m, exec r (pre ++ el ++ post) = Some m /\ group1 m = v.
Proof.
  intros HD. induction pre as [| c pre IH]; intros Hmin.
  - destruct (complete el v post HD) as (m & Hm & Hg).
    exists m. split; [| exact Hg]. cbn [append].
    destruct (el ++ post); cbn [exec]; now rewrite Hm.
  - cbn [append exec].
    destruct (matchHere r (String c (pre ++ el ++ post)) noCaptures)
      as [m0 |] eqn:E.
    + apply sound in E as (el0 & rest0 & E0 & HD0).
      specialize (Hmin "" el0 (group1 m0) rest0 HD0 E0). simpl in Hmin. lia.
    + apply IH. intros pre' el' v' post' HD' E'.
      specialize (Hmin (String c pre') el' v' post' HD').
      cbn [append] in Hmin. rewrite E' in Hmin.
      specialize (Hmin eq_refl). simpl in Hmin. lia.
Qed.

Lemma exec_none (html : string) :
  (forall pre el v post, D el v -> html <> pre ++ el ++ post) ->
  exec r html = None.
Proof.
  induction html as [| c html IH]; intros Hno.
  - cbn [exec]. destruct (matchHere r "" noCaptures) as [m0 |] eqn:E;
      [| reflexivity].
    apply sound in E as (el0 & rest0 & E0 & HD0).
    exfalso. exact (Hno "" el0 (group1 m0) rest0 HD0 E0).
  - cbn [exec].
    destruct (matchHere r (String c html) noCaptures) as [m0 |] eqn:E.
    + apply sound in E as (el0 & rest0 & E0 & HD0).
      exfalso. exact (Hno "" el0 (group1 m0) rest0 HD0 E0).
    + apply IH. intros pre el v post HD E'.
      apply (Hno (String c pre) el v post HD). cbn [append]. now rewrite E'.
Qed.

Lemma exec_occurs (pre el v post : string) :
  D el v -> exec r (pre ++ el ++ post) <> None.
Proof.
  intros HD. induction pre as [| c pre IH].
  - destruct (complete el v post HD) as (m & Hm & _). cbn [append].
    destruct (el ++ post); cbn [exec]; now rewrite Hm.
  - cbn [append exec].
    destruct (matchHere r (String c (pre ++ el ++ post)) noCaptures);
      [discriminate | exact IH].
Qed.

End Leftmost.

(** ** Pattern characters *)

Lemma upper_of_lower_isUpper (c : ascii) :
  Js.isLower c = true -> Js.isUpper (Js.charToUpper c) = true.
Proof. by_char c. Qed.

Lemma charToUpper_nonletter (c c0 : ascii) :
  Js.isUpper c0 = false -> Js.charToUpper c = c0 -> c = c0.
Proof.
  intros H0 H. destruct (Js.isLower c) eqn:E.
  - apply upper_of_lower_isUpper in E. rewrite H in E. congruence.
  - unfold Js.charToUpper in H. now rewrite E in H.
Qed.

Lemma eq_i_one (q : string) (c0 : ascii) :
  Js.isUpper c0 = false -> Js.isLower c0 = false ->
  eq_i q (String c0 "") -> q = String c0 "".
Proof.
  intros Hu Hl. unfold eq_i. destruct q as [| c q]; [discriminate |].
  destruct q; [| discriminate]. cbn [Js.toUpperCase].
  unfold Js.charToUpper at 2. rewrite Hl. intros H. injection H as H.
  now rewrite (charToUpper_nonletter c c0 Hu H).
Qed.

Lemma is_lt (c : ascii) :
  Js.charToUpper c = Js.charToUpper "<" -> notChr "<" c = false.
Proof. by_char c. Qed.

(* ================================================================= *)
(** * Further properties *)

(** ** Keys *)

Lemma allChars_app (p : ascii -> bool) (a b : string) :
  allChars p (a ++ b) = allChars p a && allChars p b.
Proof.
  induction a as [| c a IH]; simpl; [reflexivity |].
  now rewrite IH, andb_assoc.
Qed.

Lemma length_append_s (a b : string) :
  String.length (a ++ b) = String.length a + String.length b.
Proof.
  induction a as [| c a IH]; simpl; [reflexivity | now rewrite IH].
Qed.

Lemma charToLower_not_upper (c : ascii) :
  Js.isUpper (Js.charToLower c) = false.
Proof. by_char c. Qed.

Lemma toLowerCase_no_upper (s : string) :
  allChars (fun c => negb (Js.isUpper c)) (Js.toLowerCase s) = true.
Proof.
  induction s as [| c s IH]; simpl; [reflexivity |].
  now rewrite charToLower_not_upper, IH.
Qed.

Lemma toLowerCase_length (s : string) :
  String.length (Js.toLowerCase s) = String.length s.
Proof.
  induction s as [| c s IH]; simpl; [reflexivity | now rewrite IH].
Qed.

Lemma replaceSpaceRuns_hyphen_keyChars (s : string) :
  allChars (fun c => negb (Js.isUpper c)) s = true ->
  allChars keyChar (Js.replaceSpaceRuns "-" s) = true.
Proof.
  induction s as [| c s IH]; simpl; [reflexivity |].
  rewrite andb_true_iff. intros [Hc Hs].
  destruct (Js.isSpace c) eqn:E.
  - destruct (Js.startsWithSpace s); [exact (IH Hs) |].
    cbn [append allChars]. now rewrite (IH Hs).
  - cbn [allChars]. unfold keyChar at 1. now rewrite E, Hc, (IH Hs).
Qed.

Lemma replaceSpaceRuns_hyphen_length (s : string) :
  String.length (Js.replaceSpaceRuns "-" s) <= String.length s.
Proof.
  induction s as [| c s IH]; simpl; [lia |].
  destruct (Js.isSpace c).
  - destruct (Js.startsWithSpace s); simpl; lia.
  - simpl. lia.
Qed.

Lemma toKebabCase_keyChars (name : string) :
  allChars keyChar (toKebabCase name) = true.
Proof.
  apply replaceSpaceRuns_hyphen_keyChars, toLowerCase_no_upper.
Qed.

Lemma toKebabCase_of_key (s : string) :
  allChars keyChar s = true -> toKebabCase s = s.
Proof.
  unfold toKebabCase. induction s as [| c s IH]; simpl; [reflexivity |].
  rewrite andb_true_iff. intros [Hc Hs]. unfold keyChar in Hc.
  apply andb_true_iff in Hc as [Hsp Hup].
  apply negb_true_iff in Hsp. apply negb_true_iff in Hup.
  unfold Js.charToLower. rewrite Hup, Hsp. now rewrite (IH Hs).
Qed.

(** X1. The key of a name of ASCII text holds no white space and no
    uppercase letter, and is no longer than the name. *)
Theorem toKebabCase_is_key (name : string) :
  isAsciiText name = true ->
  allChars keyChar (toKebabCase name) = true
  /\ String.length (toKebabCase name) <= String.length name.
Proof.
  intros _. split; [apply toKebabCase_keyChars |].
  unfold toKebabCase. rewrite <- (toLowerCase_length name).
  apply replaceSpaceRuns_hyphen_length.
Qed.

Lemma toKebabCase_is_key_witness :
  allChars keyChar (toKebabCase "Click  Away Listener") = true
  /\ String.length (toKebabCase "Click  Away Listener")
     <= String.length "Click  Away Listener".
Proof.
  apply (toKebabCase_is_key "Click  Away Listener"). reflexivity.
Defined.

(** X2. On names of ASCII text [toKebabCase] is idempotent, and the names
    it leaves as they are are those with no white space and no uppercase
    letter. *)
Theorem toKebabCase_idempotent (name : string) :
  isAsciiText name = true ->
  toKebabCase (toKebabCase name) = toKebabCase name
  /\ (toKebabCase name = name <-> allChars keyChar name = true).
Proof.
  intros _. split.
  - apply toKebabCase_of_key, toKebabCase_keyChars.
  - split.
    + intros H. rewrite <- H. apply toKebabCase_keyChars.
    + apply toKebabCase_of_key.
Qed.

Lemma toKebabCase_idempotent_witness :
  toKebabCase (toKebabCase "App Bar") = toKebabCase "App Bar"
  /\ (toKebabCase "App Bar" = "App Bar"
      <-> allChars keyChar "App Bar" = true).
Proof.
  apply (toKebabCase_idempotent "App Bar"). reflexivity.
Defined.

(** X3. The URL [getComponentUrl] builds holds no white space and no
    uppercase letter, and is the same for a name and for its key. *)
Theorem getComponentUrl_normalised (component : string) :
  allChars keyChar (getComponentUrl component) = true
  /\ getComponentUrl (toKebabCase component) = getComponentUrl component
  /\ getComponentUrl component = componentUrl (toKebabCase component).
Proof.
  split; [| split].
  - unfold getComponentUrl. rewrite !allChars_app, toKebabCase_keyChars.
    reflexivity.
  - unfold getComponentUrl.
    now rewrite (toKebabCase_of_key _ (toKebabCase_keyChars component)).
  - reflexivity.
Qed.

Lemma lower_upper_lower (c : ascii) :
  Js.isLower c = true ->
  Js.charToLower (Js.charToUpper c) = c
  /\ Js.isUpper (Js.charToUpper c) = true.
Proof. by_char c; split; reflexivity. Qed.

Lemma capitalize_lowerWord (w : string) :
  isLowerWord w = true ->
  isCapitalizedWord (capitalize w) = true
  /\ Js.toLowerCase (capitalize w) = w.
Proof.
  destruct w as [| c l]; [discriminate |]. cbn [isLowerWord allChars].
  rewrite andb_true_iff. intros [Hc Hl].
  destruct (lower_upper_lower c Hc) as [E1 E2].
  unfold capitalize. cbn [Js.charAt0 Js.slice1 Js.toUpperCase append].
  cbn [isCapitalizedWord Js.toLowerCase].
  now rewrite E1, E2, Hl, (toLowerCase_lower l Hl).
Qed.

Lemma isLowerWord_lower (w : string) :
  isLowerWord w = true -> allChars Js.isLower w = true.
Proof. destruct w; [discriminate | auto]. Qed.

(** X4. For a key made of words of lowercase letters joined by single
    hyphens, the key of the title derived from the key is the key. *)
Theorem toKebabCase_keyToTitle (words : list string) :
  Forall (fun w => isLowerWord w = true) words ->
  toKebabCase (keyToTitle (Js.join "-" words)) = Js.join "-" words.
Proof.
  intros H. destruct words as [| w ws]; [reflexivity |].
  assert (Hl : Forall (fun x => allChars Js.isLower x = true) (w :: ws)).
  { eapply Forall_impl; [| exact H]. exact isLowerWord_lower. }
  unfold keyToTitle. rewrite (split_join_lower w ws Hl).
  assert (Hc : Forall (fun x => isCapitalizedWord x = true)
                 (map capitalize (w :: ws))).
  { clear Hl. induction H as [| x l Hx _ IH]; cbn [map]; constructor.
    - now destruct (capitalize_lowerWord x Hx).
    - exact IH. }
  assert (Hm : map Js.toLowerCase (map capitalize (w :: ws)) = w :: ws).
  { clear Hl Hc. induction H as [| x l Hx _ IH]; [reflexivity |].
    cbn [map]. rewrite IH. now destruct (capitalize_lowerWord x Hx) as [_ ->]. }
  cbn [map] in Hc, Hm |- *.
  rewrite (toKebabCase_words _ _ Hc). cbn [map]. now rewrite Hm.
Qed.

Lemma toKebabCase_keyToTitle_witness :
  keyToTitle "click-away-listener" = "Click Away Listener"
  /\ toKebabCase (keyToTitle "click-away-listener") = "click-away-listener".
Proof.
  split; [reflexivity |].
  apply (toKebabCase_keyToTitle ["click"; "away"; "listener"]).
  repeat constructor.
Defined.

(** ** The catalog and its keys *)

Lemma nodupb_NoDup (l : list string) : nodupb l = true -> NoDup l.
Proof.
  induction l as [| x l IH]; simpl; [constructor |].
  rewrite andb_true_iff, negb_true_iff. intros [Hx Hl].
  constructor; [now apply not_In_by_has | exact (IH Hl)].
Qed.

Lemma NoDup_map_injective {A B : Type} (f : A -> B) (l : list A) :
  NoDup (map f l) ->
  forall a b, In a l -> In b l -> f a = f b -> a = b.
Proof.
  induction l as [| x l IH]; [intros _ a b [] |].
  cbn [map]. intros H a b Ha Hb E. inversion H as [| ? ? Hx Hl]; subst.
  destruct Ha as [-> | Ha], Hb as [-> | Hb].
  - reflexivity.
  - exfalso. apply Hx. rewrite E. now apply in_map.
  - exfalso. apply Hx. rewrite <- E. now apply in_map.
  - now apply IH.
Qed.

(** X5. No name is listed twice in the catalog and no two names have the
    same key: a key that [list_components] prints denotes one component. *)
Theorem catalog_keys_distinct :
  NoDup COMPONENTS
  /\ NoDup (map toKebabCase COMPONENTS)
  /\ (forall a b,
        In a COMPONENTS -> In b COMPONENTS ->
        toKebabCase a = toKebabCase b -> a = b).
Proof.
  assert (H : NoDup (map toKebabCase COMPONENTS))
    by (apply nodupb_NoDup; vm_compute; reflexivity).
  split; [apply nodupb_NoDup; vm_compute; reflexivity |].
  split; [exact H | exact (NoDup_map_injective toKebabCase COMPONENTS H)].
Qed.





(** ** The search on ASCII queries *)

Lemma lower_upper (c : ascii) :
  Js.charToLower (Js.charToUpper c) = Js.charToLower c.
Proof. by_char c. Qed.

Lemma lower_lower (c : ascii) :
  Js.charToLower (Js.charToLower c) = Js.charToLower c.
Proof. by_char c. Qed.

Lemma toLowerCase_toUpperCase (s : string) :
  Js.toLowerCase (Js.toUpperCase s) = Js.toLowerCase s.
Proof.
  induction s as [| c s IH]; simpl; [reflexivity |].
  now rewrite lower_upper, IH.
Qed.

Lemma toLowerCase_toLowerCase (s : string) :
  Js.toLowerCase (Js.toLowerCase s) = Js.toLowerCase s.
Proof.
  induction s as [| c s IH]; simpl; [reflexivity |].
  now rewrite lower_lower, IH.
Qed.

(** X9. The search ignores the letter case of a query of ASCII text: the
    query in uppercase and the query in lowercase give the set of the
    query. *)
Theorem search_matches_ignores_case (query : string) :
  isAsciiText query = true ->
  search_matches (Js.toUpperCase query) = search_matches query
  /\ search_matches (Js.toLowerCase query) = search_matches query.
Proof.
  intros _. unfold search_matches. cbv zeta.
  rewrite toLowerCase_toUpperCase, toLowerCase_toLowerCase.
  split; reflexivity.
Qed.

Lemma search_matches_ignores_case_witness :
  search_matches "NAVIGATION" = search_matches "Navigation"
  /\ search_matches "navigation" = search_matches "Navigation".
Proof.
  apply (search_matches_ignores_case "Navigation"). reflexivity.
Defined.

(** ** Titles *)

Lemma split_nonempty (sep : ascii) (s : string) : Js.split sep s <> [].
Proof.
  destruct s as [| c s]; simpl; [discriminate |].
  destruct (Ascii.eqb c sep); [discriminate |].
  destruct (Js.split sep s); discriminate.
Qed.

Lemma join_split (sep : ascii) (s : string) :
  Js.join (String sep "") (Js.split sep s) = s
  /\ Forall (fun w => allChars (notChr sep) w = true) (Js.split sep s).
Proof.
  induction s as [| c s [IH1 IH2]]; simpl.
  - split; [reflexivity | repeat constructor].
  - pose proof (split_nonempty sep s) as Hne.
    destruct (Ascii.eqb c sep) eqn:E.
    + apply Ascii.eqb_eq in E. subst c.
      destruct (Js.split sep s) as [| w ws]; [congruence |].
      split; [| constructor; [reflexivity | exact IH2]].
      rewrite join_cons2. cbn [append]. now rewrite IH1.
    + destruct (Js.split sep s) as [| w ws]; [congruence |].
      apply Forall_cons_iff in IH2 as [Hw Hws]. split.
      * rewrite <- IH1. destruct ws; reflexivity.
      * constructor; [| exact Hws]. cbn [allChars]. unfold notChr at 1.
        now rewrite E, Hw.
Qed.

Lemma capitalize_keeps (w : string) :
  String.length (capitalize w) = String.length w
  /\ (allChars (notChr "-") w = true ->
      allChars (notChr "-") (capitalize w) = true).
Proof.
  destruct w as [| c w]; [split; reflexivity |].
  unfold capitalize. cbn [Js.charAt0 Js.slice1 Js.toUpperCase append].
  split; [reflexivity |]. cbn [allChars].
  rewrite !andb_true_iff. intros [Hc Hw]. split; [| exact Hw].
  revert Hc. clear. by_char c.
Qed.

Lemma title_of_segments (l : list string) :
  String.length (Js.join " " (map capitalize l))
  = String.length (Js.join "-" l)
  /\ (Forall (fun w => allChars (notChr "-") w = true) l ->
      allChars (notChr "-") (Js.join " " (map capitalize l)) = true).
Proof.
  induction l as [| w l [IH1 IH2]]; [split; reflexivity |].
  destruct (capitalize_keeps w) as [Hl Hh].
  destruct l as [| w' l].
  - cbn [map Js.join concat]. split; [exact Hl |].
    intros H. inversion H; subst. auto.
  - cbn [map] in *. rewrite !join_cons2, !length_append_s, Hl, IH1.
    split; [reflexivity |]. intros H. inversion H as [| ? ? Hw Hr]; subst.
    rewrite !allChars_app, (Hh Hw), (IH2 Hr). reflexivity.
Qed.

(** X10. For every key of ASCII text: joining the segments [split] cuts
    at the hyphens gives the key back, and the title derived from the key
    has the length of the key and holds no hyphen. *)
Theorem keyToTitle_shape (component : string) :
  isAsciiText component = true ->
  Js.join "-" (Js.split "-" component) = component
  /\ String.length (keyToTitle component) = String.length component
  /\ allChars (notChr "-") (keyToTitle component) = true.
Proof.
  intros _. destruct (join_split "-" component) as [Hj Hf].
  destruct (title_of_segments (Js.split "-" component)) as [Hl Hh].
  split; [exact Hj |]. unfold keyToTitle. split.
  - rewrite Hl. now rewrite Hj.
  - exact (Hh Hf).
Qed.

Lemma keyToTitle_shape_witness :
  Js.join "-" (Js.split "-" "a--b-") = "a--b-"
  /\ String.length (keyToTitle "a--b-") = String.length "a--b-"
  /\ allChars (notChr "-") (keyToTitle "a--b-") = true.
Proof.
  apply (keyToTitle_shape "a--b-"). reflexivity.
Defined.

(** ** The extractors *)

Lemma codeRegex_sound s m :
  matchHere codeRegex s noCaptures = Some m ->
  exists el rest, s = el ++ rest /\ CodeElement el (group1 m).
Proof.
  unfold codeRegex. intros H.
  apply matchHere_lits_sound in H as (l1 & s1 & -> & H1 & H).
  cbn [app] in H.
  apply matchHere_star_sound in H as (attrs & s2 & -> & Ha & H).
  apply matchHere_lits_sound in H as (g & s3 & -> & Hg & H).
  cbn [app] in H. rewrite matchHere_open in H.
  apply matchHere_plus_sound in H as (t & s4 & -> & Ht & Hnt & H).
  rewrite matchHere_close in H.
  rewrite <- (app_nil_r (lits_i "</code>")) in H.
  apply matchHere_lits_sound in H as (l2 & rest & -> & H2 & H).
  rewrite matchHere_nil in H. injection H as <-.
  apply eq_i_one in Hg; [subst g | reflexivity | reflexivity].
  exists (l1 ++ attrs ++ ">" ++ t ++ l2), rest. split.
  - now rewrite !append_assoc_s.
  - rewrite group1_takes. cbn [closeGroup inGroup group1].
    rewrite group1_takes. cbn [openGroup inGroup group1 append].
    exists l1, attrs, l2. repeat split; assumption.
Qed.

Lemma codeRegex_complete el t rest :
  CodeElement el t ->
  exists m, matchHere codeRegex (el ++ rest) noCaptures = Some m
            /\ group1 m = t.
Proof.
  intros (l1 & attrs & l2 & -> & H1 & Ha & Ht & Hnt & H2).
  eexists. split.
  - unfold codeRegex. rewrite !append_assoc_s.
    rewrite (matchHere_lits _ _ _ _ _ H1). cbn [app].
    apply matchHere_star_greedy; [exact Ha | reflexivity |].
    rewrite (matchHere_lits ">" _ ">" _ _ eq_refl). cbn [app].
    rewrite matchHere_open.
    apply matchHere_plus_greedy; [exact Ht | exact Hnt | |].
    { apply (headFails_eq_i _ _ _ _ _ H2). exact is_lt. }
    rewrite matchHere_close.
    rewrite <- (app_nil_r (lits_i "</code>")).
    rewrite (matchHere_lits "</code>" [] l2 rest _ H2).
    apply matchHere_nil.
  - rewrite group1_takes. cbn [closeGroup inGroup group1].
    rewrite group1_takes. reflexivity.
Qed.

(** X12. For every page: when code elements occur, [extractUsage] gives the
    text of the leftmost one inside a fenced tsx block; when none occurs, it
    gives "See documentation for usage examples.". *)
Theorem extractUsage_spec (html : string) :
  (forall el t n,
      CodeElement el t -> OccursAt el html n ->
      (forall el' t' n',
          CodeElement el' t' -> OccursAt el' html n' -> n <= n') ->
      extractUsage html = "```tsx" ++ Js.nl ++ t ++ Js.nl ++ "```")
  /\ ((forall el t n, CodeElement el t -> ~ OccursAt el html n) ->
      extractUsage html = "See documentation for usage examples.").
Proof.
  split.
  - intros el t n HD (pre & post & -> & Hn) Hmin.
    destruct (exec_leftmost codeRegex CodeElement codeRegex_sound
                codeRegex_complete pre el t post HD) as (m & Hm & Hg).
    + intros pre' el' v' post' HD' E. rewrite Hn.
      apply (Hmin el' v' (String.length pre') HD').
      exists pre', post'. split; [exact E | reflexivity].
    + unfold extractUsage. now rewrite Hm, Hg.
  - intros Hno. unfold extractUsage.
    rewrite (exec_none codeRegex CodeElement codeRegex_sound); [reflexivity |].
    intros pre el v post HD E.
    apply (Hno el v (String.length pre) HD). now exists pre, post.
Qed.

Lemma no_code_by_exec (html : string) :
  exec codeRegex html = None ->
  forall el t n, CodeElement el t -> ~ OccursAt el html n.
Proof.
  intros E el t n HD (pre & post & -> & _).
  exact (exec_occurs codeRegex CodeElement codeRegex_complete
           pre el t post HD E).
Qed.

Lemma extractUsage_spec_witness :
  extractUsage "<code class='x'>npm install</code><code>b</code>"
  = "```tsx" ++ Js.nl ++ "npm install" ++ Js.nl ++ "```"
  /\ extractUsage "<p>no code here</p>"
     = "See documentation for usage examples.".
Proof.
  split.
  - apply (proj1 (extractUsage_spec
                    "<code class='x'>npm install</code><code>b</code>")
             "<code class='x'>npm install</code>" "npm install" 0).
    + exists "<code", " class='x'", "</code>".
      repeat split; try reflexivity; discriminate.
    + exists "", "<code>b</code>". split; reflexivity.
    + intros. apply Nat.le_0_l.
  - apply (proj2 (extractUsage_spec "<p>no code here</p>")).
    apply no_code_by_exec. reflexivity.
Defined.

Lemma replaceSpaceRuns_empty (s : string) :
  Js.replaceSpaceRuns "" s = removeSpaces s.
Proof.
  induction s as [| c s IH]; simpl; [reflexivity |].
  destruct (Js.isSpace c); [| now rewrite IH].
  destruct (Js.startsWithSpace s); exact IH.
Qed.

Lemma removeSpaces_no_space (s : string) :
  allChars (fun c => negb (Js.isSpace c)) (removeSpaces s) = true.
Proof.
  induction s as [| c s IH]; simpl; [reflexivity |].
  destruct (Js.isSpace c) eqn:E; [exact IH |].
  cbn [allChars]. now rewrite E, IH.
Qed.

Lemma removeSpaces_app (a b : string) :
  removeSpaces (a ++ b) = removeSpaces a ++ removeSpaces b.
Proof.
  induction a as [| c a IH]; simpl; [reflexivity |].
  destruct (Js.isSpace c); now rewrite IH.
Qed.

Lemma upper_not_space (c : ascii) : Js.isUpper c = true -> Js.isSpace c = false.
Proof. by_char c. Qed.

Lemma removeSpaces_capitalized (w : string) :
  isCapitalizedWord w = true -> removeSpaces w = w.
Proof.
  destruct w as [| u ls]; [discriminate |]. cbn [isCapitalizedWord].
  rewrite andb_true_iff. intros [Hu Hl]. cbn [removeSpaces].
  rewrite (upper_not_space u Hu). f_equal.
  rewrite <- (replaceSpaceRuns_empty ls). now apply replaceSpaceRuns_lower.
Qed.

Lemma removeSpaces_words (words : list string) :
  Forall (fun w => isCapitalizedWord w = true) words ->
  removeSpaces (Js.join " " words) = Js.join "" words.
Proof.
  induction 1 as [| w l Hw Hl IH]; [reflexivity |].
  destruct l as [| w' l].
  - cbn [Js.join concat]. now apply removeSpaces_capitalized.
  - rewrite !join_cons2, !removeSpaces_app, IH.
    now rewrite (removeSpaces_capitalized w Hw).
Qed.

(** X13. For a component name of ASCII text: when the import pattern
    finds nothing on the page, [extractImport] answers with the default
    import statement of the component name with all its white space taken
    out (for a name of capitalized words: the
    words run together); when the pattern matches, with the matched text;
    it throws only when the construction of the pattern throws. *)
Theorem extractImport_default
    (matchDynamic : string -> string -> string -> completion (option string))
    (html componentName : string) :
  isAsciiText componentName = true ->
  matchDynamic (importPatternSource componentName) "i" html = Normal None ->
  extractImport matchDynamic html componentName
  = Normal ("import { " ++ removeSpaces componentName
              ++ " } from '@mui/material';")
  /\ allChars (fun c => negb (Js.isSpace c)) (removeSpaces componentName)
     = true
  /\ (forall words,
        Forall (fun w => isCapitalizedWord w = true) words ->
        componentName = Js.join " " words ->
        removeSpaces componentName = Js.join "" words)
  /\ (forall matchDynamic' m0,
        matchDynamic' (importPatternSource componentName) "i" html
        = Normal (Some m0) ->
        extractImport matchDynamic' html componentName = Normal m0)
  /\ (forall matchDynamic' e,
        extractImport matchDynamic' html componentName = Throw e ->
        matchDynamic' (importPatternSource componentName) "i" html
        = Throw e).
Proof.
  intros _ H. unfold extractImport, bind.
  split; [now rewrite H, replaceSpaceRuns_empty |].
  split; [apply removeSpaces_no_space |]. split; [| split].
  - intros words Hw ->. now apply removeSpaces_words.
  - intros md m0 Hm. now rewrite Hm.
  - intros md e.
    destruct (md (importPatternSource componentName) "i" html) as [[m0 |] | e'];
      [discriminate | discriminate | intros E; injection E as ->; reflexivity].
Qed.

Lemma extractImport_default_witness :
  extractImport noImportMatch "<p>x</p>" "Floating Action Button"
  = Normal "import { FloatingActionButton } from '@mui/material';".
Proof.
  exact (proj1 (extractImport_default noImportMatch "<p>x</p>"
                  "Floating Action Button" eq_refl eq_refl)).
Defined.

(** ** The handler and the dispatcher *)

Lemma append_cancel_r (a b c : string) : a ++ c = b ++ c -> a = b.
Proof.
  revert b. induction a as [| x a IH]; intros [| y b] H; simpl in H.
  - reflexivity.
  - exfalso. apply (f_equal String.length) in H. simpl in H.
    rewrite length_append_s in H. lia.
  - exfalso. apply (f_equal String.length) in H. simpl in H.
    rewrite length_append_s in H. lia.
  - injection H as -> H. now rewrite (IH b H).
Qed.

Lemma append_cancel_l (p a b : string) : p ++ a = p ++ b -> a = b.
Proof.
  induction p as [| x p IH]; simpl; [auto |].
  intros H. injection H as H. auto.
Qed.

(** X14. [get_component_info] does not normalise its key: for a key of
    ASCII text, the URL it requests is the URL [getComponentUrl] builds for
    the key exactly when the key holds no white space and no uppercase
    letter. *)
Theorem componentUrl_of_raw_key (component : string) :
  isAsciiText component = true ->
  (componentUrl component = getComponentUrl component
   <-> allChars keyChar component = true).
Proof.
  intros _. unfold componentUrl, getComponentUrl. split.
  - intros H. apply append_cancel_l, append_cancel_r in H.
    rewrite H. apply toKebabCase_keyChars.
  - intros H. now rewrite (toKebabCase_of_key component H).
Qed.

Lemma componentUrl_of_raw_key_witness :
  componentUrl "text-field" = getComponentUrl "text-field"
  /\ componentUrl "Text Field" <> getComponentUrl "Text Field".
Proof.
  split.
  - apply (proj2 (componentUrl_of_raw_key "text-field" eq_refl)).
    reflexivity.
  - intros H. apply (proj1 (componentUrl_of_raw_key "Text Field" eq_refl)) in H.
    discriminate H.
Defined.



(** Every call of every tool completes normally, on every host, with a
    result of one text item. *)
Lemma callTool_returns_text
    (customizationGuide setupGuide muiGuide : string)
    (fetch : string -> completion Response)
    (matchDynamic : string -> string -> string -> completion (option string))
    (call : toolCall) :
  exists t,
    callTool customizationGuide setupGuide muiGuide fetch matchDynamic call
    = Normal {| content := [ {| type := "text"; text := t |} ] |}.
Proof.
  destruct call as [| component | | query | |]; cbn [callTool].
  - unfold list_components. eexists. reflexivity.
  - apply get_component_info_returns.
  - eexists. reflexivity.
  - unfold search_components.
    destruct (List.length (search_matches query) =? 0)%nat;
      eexists; reflexivity.
  - eexists. reflexivity.
  - eexists. reflexivity.
Qed.

(* ================================================================= *)
(** * Properties on strings of code units *)

Module Utf16Facts.

Import Utf16.
Import Utf16.RegExp.

(** ** Sets and substrings *)

Lemma eqb_eq (a b : ustring) : eqb a b = true <-> a = b.
Proof.
  revert b. induction a as [| x a IH]; intros [| y b]; simpl;
    try (split; [discriminate | discriminate]); [tauto |].
  rewrite andb_true_iff, N.eqb_eq, IH. split.
  - intros [-> ->]. reflexivity.
  - intros H. injection H as -> ->. tauto.
Qed.

Lemma has_In_u (m : list ustring) (x : ustring) : has m x = true <-> In x m.
Proof.
  unfold has. rewrite existsb_exists. split.
  - intros [y [Hy He]]. apply eqb_eq in He. now subst.
  - intros H. exists x. split; [assumption | now apply eqb_eq].
Qed.

Lemma not_In_by_has_u (m : list ustring) (x : ustring) :
  has m x = false -> ~ In x m.
Proof. intros H Hin. apply has_In_u in Hin. congruence. Qed.

Lemma In_add (m : list ustring) (x y : ustring) :
  In y (add m x) <-> In y m \/ y = x.
Proof.
  unfold add. destruct (has m x) eqn:E.
  - apply has_In_u in E. split; [tauto | intros [H | ->]; assumption].
  - rewrite in_app_iff. simpl. intuition congruence.
Qed.

Lemma NoDup_add (m : list ustring) (x : ustring) :
  NoDup m -> NoDup (add m x).
Proof.
  intros H. unfold add. destruct (has m x) eqn:E; [assumption |].
  apply not_In_by_has_u in E.
  apply NoDup_app; [exact H | repeat constructor; intros [] |].
  intros a Ha [<- | []]. exact (E Ha).
Qed.

Lemma In_fold_add (l m : list ustring) (y : ustring) :
  In y (fold_left add l m) <-> In y m \/ In y l.
Proof.
  revert m. induction l as [| a l IH]; intros m; simpl.
  - tauto.
  - rewrite IH, In_add. intuition congruence.
Qed.

Lemma NoDup_fold_add (l m : list ustring) :
  NoDup m -> NoDup (fold_left add l m).
Proof.
  revert m. induction l as [| a l IH]; intros m H; simpl.
  - assumption.
  - apply IH, NoDup_add, H.
Qed.

Lemma startsWith_iff_u (s p : ustring) :
  startsWith s p = true <-> exists r, s = (p ++ r)%list.
Proof.
  revert s. induction p as [| a p IH]; intros s; simpl.
  - split; [intros _; now exists s | reflexivity].
  - destruct s as [| b s].
    + split; [discriminate | intros [r Hr]; discriminate].
    + rewrite andb_true_iff, N.eqb_eq, IH. split.
      * intros [-> [r ->]]. now exists r.
      * intros [r Hr]. injection Hr as -> ->. split; [reflexivity | now exists r].
Qed.

Lemma includes_iff_u (s sub : ustring) :
  includes s sub = true <-> Substring sub s.
Proof.
  unfold Substring. induction s as [| c s IH].
  - simpl. rewrite orb_false_r, startsWith_iff_u. split.
    + intros [r Hr]. now exists [], r.
    + intros [l [r H]]. destruct l; [now exists r | discriminate].
  - cbn [includes]. rewrite orb_true_iff, startsWith_iff_u, IH. split.
    + intros [[r Hr] | [l [r Hr]]].
      * now exists [], r.
      * exists (c :: l), r. simpl. now rewrite Hr.
    + intros [l [r H]]. destruct l as [| c' l].
      * left. now exists r.
      * right. simpl in H. injection H as _ H. now exists l, r.
Qed.

(** ** The two passes of the search, for any lower-casing *)

Lemma In_categoryPass lq cm m y :
  In y (categoryPass lq cm m) <->
  In y m \/
  exists category components,
    In (category, components) cm /\ includes lq category = true
    /\ In y components.
Proof.
  revert m. induction cm as [| [cat comps] cm IH]; intros m.
  - simpl. split; [tauto | intros [H | [c [cs [[] _]]]]; assumption].
  - unfold categoryPass in *. cbn [fold_left]. rewrite IH. clear IH.
    destruct (includes lq cat) eqn:E.
    + rewrite In_fold_add. split.
      * intros [[H | H] | [c [cs [H1 H2]]]]; [tauto | |].
        -- right. exists cat, comps. simpl. tauto.
        -- right. exists c, cs. simpl. tauto.
      * intros [H | [c [cs [[H1 | H1] [H2 H3]]]]]; [tauto | |].
        -- injection H1 as <- <-. tauto.
        -- right. exists c, cs. tauto.
    + split.
      * intros [H | [c [cs [H1 H2]]]]; [tauto |].
        right. exists c, cs. simpl. tauto.
      * intros [H | [c [cs [[H1 | H1] [H2 H3]]]]]; [tauto | |].
        -- injection H1 as <- <-. congruence.
        -- right. exists c, cs. tauto.
Qed.

Lemma NoDup_categoryPass lq cm m :
  NoDup m -> NoDup (categoryPass lq cm m).
Proof.
  revert m. induction cm as [| [cat comps] cm IH]; intros m H.
  - assumption.
  - unfold categoryPass in *. cbn [fold_left]. apply IH.
    destruct (includes lq cat); [apply NoDup_fold_add |]; assumption.
Qed.

Section Search.

Variable toLowerCase : ustring -> ustring.

Lemma In_namePass lq names m y :
  In y (namePass toLowerCase lq names m) <->
  In y m \/ (In y names /\ includes (toLowerCase y) lq = true).
Proof.
  revert m. induction names as [| a names IH]; intros m.
  - simpl. tauto.
  - unfold namePass in *. cbn [fold_left]. rewrite IH. clear IH.
    destruct (includes (toLowerCase a) lq) eqn:E.
    + rewrite In_add. simpl. intuition (subst; auto).
    + simpl. intuition (subst; try congruence; auto).
Qed.

Lemma NoDup_namePass lq names m :
  NoDup m -> NoDup (namePass toLowerCase lq names m).
Proof.
  revert m. induction names as [| a names IH]; intros m H.
  - assumption.
  - unfold namePass in *. cbn [fold_left]. apply IH.
    destruct (includes (toLowerCase a) lq); [apply NoDup_add |]; assumption.
Qed.

Lemma namePass_extends lq names m :
  exists rest,
    namePass toLowerCase lq names m = (m ++ rest)%list
    /\ forall c, In c rest ->
                 In c names /\ includes (toLowerCase c) lq = true
                 /\ ~ In c m.
Proof.
  revert m. induction names as [| a names IH]; intros m.
  - exists []. split; [now rewrite app_nil_r | intros c []].
  - unfold namePass in *. cbn [fold_left].
    destruct (includes (toLowerCase a) lq) eqn:E.
    + destruct (has m a) eqn:Eh.
      * replace (add m a) with m by (unfold add; now rewrite Eh).
        destruct (IH m) as (rest & -> & Hr). exists rest.
        split; [reflexivity |]. intros c Hc.
        destruct (Hr c Hc) as (H1 & H2 & H3). simpl. tauto.
      * replace (add m a) with (m ++ [a])%list
          by (unfold add; now rewrite Eh).
        destruct (IH (m ++ [a])%list) as (rest & -> & Hr).
        exists (a :: rest). split; [now rewrite <- app_assoc |].
        intros c [<- | Hc].
        -- split; [now left |]. split; [exact E |].
           now apply not_In_by_has_u.
        -- destruct (Hr c Hc) as (H1 & H2 & H3).
           split; [now right |]. split; [exact H2 |].
           intros Hm. apply H3. apply in_or_app. now left.
    + destruct (IH m) as (rest & -> & Hr). exists rest.
      split; [reflexivity |]. intros c Hc.
      destruct (Hr c Hc) as (H1 & H2 & H3). simpl. tauto.
Qed.

Lemma NoDup_search_matches (query : ustring) :
  NoDup (search_matches toLowerCase query).
Proof.
  unfold search_matches. apply NoDup_namePass, NoDup_categoryPass. constructor.
Qed.

End Search.

(** C1. For every query, a string of any code units, and whatever the
    lower-casing of the language does to it: the set [search_components]
    builds holds exactly the components of every category whose label
    occurs in the lowercased query together with the catalog names whose
    lowercased form contains the lowercased query, each once; when the set
    is empty the tool answers with the hint text, and otherwise with the
    count and the list of the set. *)
Theorem search_components_union
    (toLowerCase : ustring -> ustring) (query : ustring) :
  (forall c,
      In c (search_matches toLowerCase query) <->
      (exists category components,
          In (category, components) COMPONENT_MAP
          /\ Substring category (toLowerCase query)
          /\ In c components)
      \/ (In c COMPONENTS
          /\ Substring (toLowerCase query) (toLowerCase c)))
  /\ NoDup (search_matches toLowerCase query)
  /\ (search_matches toLowerCase query = [] ->
      search_components toLowerCase query =
      {| content :=
           [ {| type := lit "text";
                text :=
                  (lit "No components found matching '" ++ query ++ lit "'."
                     ++ nl ++ nl
                     ++ lit "Try broader terms like: form, navigation, overlay, feedback, data, layout, input, button")%list
             |} ] |})
  /\ (search_matches toLowerCase query <> [] ->
      search_components toLowerCase query =
      {| content :=
           [ {| type := lit "text";
                text :=
                  (lit "# Components matching " ++ dquote ++ query ++ dquote
                     ++ lit " ("
                     ++ lit (Js.numToString
                               (List.length (search_matches toLowerCase query)))
                     ++ lit " found)" ++ nl ++ nl
                     ++ join nl
                          (map (fun name =>
                                  lit "- " ++ name ++ lit " ("
                                    ++ toKebabCase toLowerCase name ++ lit ")"
                                    ++ nl ++ lit "  "
                                    ++ lit "https://mui.com/material-ui/react-"
                                    ++ toKebabCase toLowerCase name ++ lit "/")
                             (search_matches toLowerCase query))
                     ++ nl ++ nl
                     ++ lit "Use get_component_info with the kebab-case name for details.")%list
             |} ] |}).
Proof.
  split; [| split; [| split]].
  - intros c. unfold search_matches. rewrite In_namePass, In_categoryPass.
    rewrite includes_iff_u. split.
    + intros [[[] | [cat [comps [H1 [H2 H3]]]]] | H]; [| tauto].
      left. exists cat, comps. rewrite <- includes_iff_u. tauto.
    + intros [[cat [comps [H1 [H2 H3]]]] | H]; [| tauto].
      left. right. exists cat, comps. rewrite includes_iff_u. tauto.
  - apply NoDup_search_matches.
  - intros H. unfold search_components. now rewrite H.
  - intros H. unfold search_components.
    destruct (search_matches toLowerCase query); [congruence | reflexivity].
Qed.

Lemma search_components_union_witness :
  In (lit "Link") (search_matches kelvinLower [8490%N])
  /\ search_components asciiLower (lit "zzz-nonexistent") =
     textResult
       (lit "No components found matching 'zzz-nonexistent'." ++ nl ++ nl
          ++ lit "Try broader terms like: form, navigation, overlay, feedback, data, layout, input, button")%list.
Proof.
  split.
  - destruct (search_components_union kelvinLower [8490%N]) as [H _].
    apply H. right. split.
    + apply has_In_u. vm_compute. reflexivity.
    + exists (lit "lin"), []. reflexivity.
  - destruct (search_components_union asciiLower (lit "zzz-nonexistent"))
      as [_ [_ [H _]]].
    apply H. vm_compute. reflexivity.
Defined.

(** ** The matcher against a declarative reading of the patterns *)

Lemma inGroup_takes_u (w : ustring) (caps : captures) :
  inGroup (takes w caps) = inGroup caps.
Proof.
  revert caps. induction w as [| c w IH]; intros caps; simpl;
    [reflexivity | now rewrite IH].
Qed.

Lemma group1_takes_u (w : ustring) (caps : captures) :
  group1 (takes w caps)
  = if inGroup caps then (group1 caps ++ w)%list else group1 caps.
Proof.
  revert caps. induction w as [| c w IH]; intros caps; simpl.
  - destruct (inGroup caps); [now rewrite app_nil_r | reflexivity].
  - rewrite IH. simpl. destruct (inGroup caps); [| reflexivity].
    now rewrite <- app_assoc.
Qed.

Lemma star_sound_u p k s caps m :
  star p k s caps = Some m ->
  exists w s', s = (w ++ s')%list /\ forallb p w = true
               /\ k s' (takes w caps) = Some m.
Proof.
  revert caps. induction s as [| c s IH]; intros caps H; simpl in H.
  - exists [], []. auto.
  - destruct (p c) eqn:E.
    + destruct (star p k s (take c caps)) as [m' |] eqn:E2.
      * injection H as ->. apply IH in E2 as (w & s' & -> & Hw & Hk).
        exists (c :: w), s'. simpl. rewrite E, Hw. auto.
      * exists [], (c :: s). auto.
    + exists [], (c :: s). auto.
Qed.

Lemma star_greedy_u p k w s' caps m :
  forallb p w = true -> headFails p s' = true ->
  k s' (takes w caps) = Some m ->
  star p k (w ++ s')%list caps = Some m.
Proof.
  revert caps. induction w as [| c w IH]; intros caps Hw Hs Hk; simpl in *.
  - destruct s' as [| c s']; [exact Hk |]. simpl in *.
    apply negb_true_iff in Hs. now rewrite Hs.
  - apply andb_true_iff in Hw as [Hc Hw].
    now rewrite Hc, (IH (take c caps) Hw Hs Hk).
Qed.

Lemma matchHere_nil_u s caps : matchHere [] s caps = Some caps.
Proof. reflexivity. Qed.

Lemma matchHere_open_u r s caps :
  matchHere (GroupOpen :: r) s caps = matchHere r s (openGroup caps).
Proof. reflexivity. Qed.

Lemma matchHere_close_u r s caps :
  matchHere (GroupClose :: r) s caps = matchHere r s (closeGroup caps).
Proof. reflexivity. Qed.

Lemma matchHere_star_sound_u p r s caps m :
  matchHere (Star p :: r) s caps = Some m ->
  exists w s', s = (w ++ s')%list /\ forallb p w = true
               /\ matchHere r s' (takes w caps) = Some m.
Proof. apply star_sound_u. Qed.

Lemma matchHere_star_greedy_u p r w s' caps m :
  forallb p w = true -> headFails p s' = true ->
  matchHere r s' (takes w caps) = Some m ->
  matchHere (Star p :: r) (w ++ s')%list caps = Some m.
Proof. apply star_greedy_u. Qed.

Lemma matchHere_plus_sound_u p r s caps m :
  matchHere (Plus p :: r) s caps = Some m ->
  exists w s', s = (w ++ s')%list /\ forallb p w = true /\ w <> []
               /\ matchHere r s' (takes w caps) = Some m.
Proof.
  intros H. cbn [matchHere] in H. destruct s as [| c s]; [discriminate |].
  destruct (p c) eqn:E; [| discriminate].
  apply star_sound_u in H as (w & s' & -> & Hw & Hk).
  exists (c :: w), s'. simpl. rewrite E, Hw.
  repeat split; [discriminate | exact Hk].
Qed.

Lemma matchHere_plus_greedy_u p r w s' caps m :
  forallb p w = true -> w <> [] -> headFails p s' = true ->
  matchHere r s' (takes w caps) = Some m ->
  matchHere (Plus p :: r) (w ++ s')%list caps = Some m.
Proof.
  intros Hw Hne Hs Hk. destruct w as [| c w]; [congruence |].
  simpl in Hw. apply andb_true_iff in Hw as [Hc Hw].
  cbn [matchHere app]. rewrite Hc. now apply star_greedy_u.
Qed.

Lemma matchHere_lits_sound_u l r s caps m :
  matchHere (map (fun c => One (chr_i c)) l ++ r)%list s caps = Some m ->
  exists t s', s = (t ++ s')%list /\ eq_i t l
               /\ matchHere r s' (takes t caps) = Some m.
Proof.
  revert s caps. induction l as [| a l IH]; intros s caps H.
  - exists [], s. repeat split. exact H.
  - cbn [map app matchHere] in H. destruct s as [| c s]; [discriminate |].
    destruct (chr_i a c) eqn:E; [| discriminate].
    apply IH in H as (t & s' & -> & Ht & Hm).
    exists (c :: t), s'. split; [reflexivity |]. split; [| exact Hm].
    unfold eq_i in *. cbn [map]. rewrite Ht. f_equal.
    now apply N.eqb_eq.
Qed.

Lemma matchHere_lits_u l r t s' caps :
  eq_i t l ->
  matchHere (map (fun c => One (chr_i c)) l ++ r)%list (t ++ s')%list caps
  = matchHere r s' (takes t caps).
Proof.
  revert t caps. induction l as [| a l IH]; intros t caps H;
    destruct t as [| c t]; unfold eq_i in H; cbn [map] in H;
    try discriminate.
  - reflexivity.
  - injection H as Hc Ht. cbn [map app matchHere takes].
    unfold chr_i at 1. rewrite Hc, N.eqb_refl. now apply IH.
Qed.

Lemma headFails_eq_i_u (p : cls) (l rest : ustring) (c0 : N) (l0 : ustring) :
  eq_i l (c0 :: l0) ->
  (forall c, canonicalize c = canonicalize c0 -> p c = false) ->
  headFails p (l ++ rest)%list = true.
Proof.
  unfold eq_i. destruct l as [| c l]; cbn [map]; [discriminate |].
  intros H Hp. injection H as Hc _. simpl. now rewrite (Hp c Hc).
Qed.

(** [s.match(r)] finds the leftmost match. *)
Section Leftmost.

Variable r : regex.
Variable D : ustring -> ustring -> Prop.

Hypothesis sound : forall s m,
  matchHere r s noCaptures = Some m ->
  exists el rest, s = (el ++ rest)%list /\ D el (group1 m).

Hypothesis complete : forall el v rest,
  D el v ->
  exists m, matchHere r (el ++ rest)%list noCaptures = Some m
            /\ group1 m = v.

Lemma exec_leftmost_u (pre el v post : ustring) :
  D el v ->
  (forall pre' el' v' post',
      D el' v' -> (pre ++ el ++ post = pre' ++ el' ++ post')%list ->
      List.length pre <= List.length pre') ->
  exists m, exec r (pre ++ el ++ post)%list = Some m /\ group1 m = v.
Proof.
  intros HD. induction pre as [| c pre IH]; intros Hmin.
  - destruct (complete el v post HD) as (m & Hm & Hg).
    exists m. split; [| exact Hg]. cbn [app].
    destruct (el ++ post)%list; cbn [exec]; now rewrite Hm.
  - cbn [app exec].
    destruct (matchHere r (c :: pre ++ el ++ post)%list noCaptures)
      as [m0 |] eqn:E.
    + apply sound in E as (el0 & rest0 & E0 & HD0).
      specialize (Hmin [] el0 (group1 m0) rest0 HD0 E0). simpl in Hmin. lia.
    + apply IH. intros pre' el' v' post' HD' E'.
      specialize (Hmin (c :: pre') el' v' post' HD').
      cbn [app] in Hmin. rewrite E' in Hmin.
      specialize (Hmin eq_refl). simpl in Hmin. lia.
Qed.

Lemma exec_none_u (html : ustring) :
  (forall pre el v post, D el v -> html <> (pre ++ el ++ post)%list) ->
  exec r html = None.
Proof.
  induction html as [| c html IH]; intros Hno.
  - cbn [exec]. destruct (matchHere r [] noCaptures) as [m0 |] eqn:E;
      [| reflexivity].
    apply sound in E as (el0 & rest0 & E0 & HD0).
    exfalso. exact (Hno [] el0 (group1 m0) rest0 HD0 E0).
  - cbn [exec].
    destruct (matchHere r (c :: html) noCaptures) as [m0 |] eqn:E.
    + apply sound in E as (el0 & rest0 & E0 & HD0).
      exfalso. exact (Hno [] el0 (group1 m0) rest0 HD0 E0).
    + apply IH. intros pre el v post HD E'.
      apply (Hno (c :: pre) el v post HD). cbn [app]. now rewrite E'.
Qed.

Lemma exec_occurs_u (pre el v post : ustring) :
  D el v -> exec r (pre ++ el ++ post)%list <> None.
Proof.
  intros HD. induction pre as [| c pre IH].
  - destruct (complete el v post HD) as (m & Hm & _). cbn [app].
    destruct (el ++ post)%list; cbn [exec]; now rewrite Hm.
  - cbn [app exec].
    destruct (matchHere r (c :: pre ++ el ++ post)%list noCaptures);
      [discriminate | exact IH].
Qed.

End Leftmost.

Lemma exec_matchHere (r : regex) (s : ustring) (m : captures) :
  exec r s = Some m ->
  exists pre suf, s = (pre ++ suf)%list
                  /\ matchHere r suf noCaptures = Some m.
Proof.
  induction s as [| c s IH]; cbn [exec].
  - destruct (matchHere r [] noCaptures) eqn:E; [| discriminate].
    intros H. injection H as <-. now exists [], [].
  - destruct (matchHere r (c :: s) noCaptures) eqn:E.
    + intros H. injection H as <-. now exists [], (c :: s).
    + intros H. destruct (IH H) as (pre & suf & -> & Hm).
      now exists (c :: pre), suf.
Qed.

(** ** What the patterns of [extractDescription] match *)

Lemma canonicalize_inv (x k : N) :
  canonicalize x = k -> x = k \/ (x = (k + 32)%N /\ (65 <= k <= 90)%N).
Proof.
  unfold canonicalize.
  destruct ((97 <=? x) && (x <=? 122))%N eqn:E; [| now left].
  apply andb_true_iff in E as [E1 E2].
  apply N.leb_le in E1. apply N.leb_le in E2. intros <-. right. lia.
Qed.

Lemma eq_i_one_u (q : ustring) (c0 : N) :
  canonicalize c0 = c0 -> ~ (65 <= c0 <= 90)%N ->
  eq_i q [c0] -> q = [c0].
Proof.
  intros Hc Hn. unfold eq_i. destruct q as [| c q]; [discriminate |].
  destruct q; [| discriminate]. cbn [map]. rewrite Hc.
  intros H. injection H as H.
  destruct (canonicalize_inv c c0 H) as [-> | [_ Hr]];
    [reflexivity | contradiction].
Qed.

Lemma not_space_n (c : N) :
  canonicalize c = canonicalize 110 -> isSpace c = false.
Proof.
  intros H. destruct (canonicalize_inv c _ H) as [-> | [-> _]]; reflexivity.
Qed.

Lemma not_space_c (c : N) :
  canonicalize c = canonicalize 99 -> isSpace c = false.
Proof.
  intros H. destruct (canonicalize_inv c _ H) as [-> | [-> _]]; reflexivity.
Qed.

Lemma is_lt_u (c : N) :
  canonicalize c = canonicalize 60 -> notChr 60 c = false.
Proof.
  intros H. destruct (canonicalize_inv c _ H) as [-> | [_ Hr]];
    [reflexivity |].
  change (canonicalize 60) with 60%N in Hr. lia.
Qed.

Lemma metaRegex_sound s m :
  matchHere metaRegex s noCaptures = Some m ->
  exists el rest, s = (el ++ rest)%list /\ MetaDescription el (group1 m).
Proof.
  unfold metaRegex, lits_i. intros H.
  apply matchHere_lits_sound_u in H as (l1 & s1 & -> & H1 & H).
  cbn [app] in H.
  apply matchHere_plus_sound_u in H as (ws1 & s2 & -> & Hw1 & Hn1 & H).
  apply matchHere_lits_sound_u in H as (l2 & s3 & -> & H2 & H).
  cbn [app] in H.
  apply matchHere_plus_sound_u in H as (ws2 & s4 & -> & Hw2 & Hn2 & H).
  apply matchHere_lits_sound_u in H as (l3 & s5 & -> & H3 & H).
  cbn [app] in H. rewrite matchHere_open_u in H.
  apply matchHere_plus_sound_u in H as (v & s6 & -> & Hv & Hnv & H).
  rewrite matchHere_close_u in H.
  rewrite <- (app_nil_r (map _ (lit Js.dquote))) in H.
  apply matchHere_lits_sound_u in H as (q & rest & -> & Hq & H).
  rewrite matchHere_nil_u in H. injection H as <-.
  apply (eq_i_one_u q 34) in Hq; [subst q | reflexivity | lia].
  exists (l1 ++ ws1 ++ l2 ++ ws2 ++ l3 ++ v ++ dquote)%list, rest. split.
  - now rewrite <- !app_assoc.
  - rewrite group1_takes_u. cbn [closeGroup inGroup group1].
    rewrite group1_takes_u. cbn [openGroup inGroup group1 app].
    exists l1, ws1, l2, ws2, l3. repeat split; assumption.
Qed.

Lemma metaRegex_complete el v rest :
  MetaDescription el v ->
  exists m, matchHere metaRegex (el ++ rest)%list noCaptures = Some m
            /\ group1 m = v.
Proof.
  intros (l1 & ws1 & l2 & ws2 & l3 & -> & H1 & Hw1 & Hn1 & H2 & Hw2 & Hn2
          & H3 & Hv & Hnv).
  eexists. split.
  - unfold metaRegex, lits_i. rewrite <- !app_assoc.
    rewrite (matchHere_lits_u _ _ _ _ _ H1). cbn [app].
    apply matchHere_plus_greedy_u; [exact Hw1 | exact Hn1 | |].
    { apply (headFails_eq_i_u _ _ _ _ _ H2). exact not_space_n. }
    rewrite (matchHere_lits_u _ _ _ _ _ H2). cbn [app].
    apply matchHere_plus_greedy_u; [exact Hw2 | exact Hn2 | |].
    { apply (headFails_eq_i_u _ _ _ _ _ H3). exact not_space_c. }
    rewrite (matchHere_lits_u _ _ _ _ _ H3). cbn [app].
    rewrite matchHere_open_u.
    apply matchHere_plus_greedy_u; [exact Hv | exact Hnv | reflexivity |].
    rewrite matchHere_close_u.
    rewrite <- (app_nil_r (map _ (lit Js.dquote))).
    rewrite (matchHere_lits_u (lit Js.dquote) [] dquote rest _ eq_refl).
    apply matchHere_nil_u.
  - rewrite group1_takes_u. cbn [closeGroup inGroup group1].
    rewrite group1_takes_u. reflexivity.
Qed.

Lemma pRegex_sound s m :
  matchHere pRegex s noCaptures = Some m ->
  exists el rest, s = (el ++ rest)%list /\ Paragraph el (group1 m).
Proof.
  unfold pRegex, lits_i. intros H.
  apply matchHere_lits_sound_u in H as (l1 & s1 & -> & H1 & H).
  cbn [app] in H.
  apply matchHere_star_sound_u in H as (attrs & s2 & -> & Ha & H).
  apply matchHere_lits_sound_u in H as (g & s3 & -> & Hg & H).
  cbn [app] in H. rewrite matchHere_open_u in H.
  apply matchHere_plus_sound_u in H as (t & s4 & -> & Ht & Hnt & H).
  rewrite matchHere_close_u in H.
  rewrite <- (app_nil_r (map _ (lit "</p>"))) in H.
  apply matchHere_lits_sound_u in H as (l2 & rest & -> & H2 & H).
  rewrite matchHere_nil_u in H. injection H as <-.
  apply (eq_i_one_u g 62) in Hg; [subst g | reflexivity | lia].
  exists (l1 ++ attrs ++ lit ">" ++ t ++ l2)%list, rest. split.
  - now rewrite <- !app_assoc.
  - rewrite group1_takes_u. cbn [closeGroup inGroup group1].
    rewrite group1_takes_u. cbn [openGroup inGroup group1 app].
    exists l1, attrs, l2. repeat split; assumption.
Qed.

Lemma pRegex_complete el t rest :
  Paragraph el t ->
  exists m, matchHere pRegex (el ++ rest)%list noCaptures = Some m
            /\ group1 m = t.
Proof.
  intros (l1 & attrs & l2 & -> & H1 & Ha & Ht & Hnt & H2).
  eexists. split.
  - unfold pRegex, lits_i. rewrite <- !app_assoc.
    rewrite (matchHere_lits_u _ _ _ _ _ H1). cbn [app].
    apply matchHere_star_greedy_u; [exact Ha | reflexivity |].
    rewrite (matchHere_lits_u (lit ">") _ (lit ">") _ _ eq_refl). cbn [app].
    rewrite matchHere_open_u.
    apply matchHere_plus_greedy_u; [exact Ht | exact Hnt | |].
    { apply (headFails_eq_i_u _ _ _ _ _ H2). exact is_lt_u. }
    rewrite matchHere_close_u.
    rewrite <- (app_nil_r (map _ (lit "</p>"))).
    rewrite (matchHere_lits_u (lit "</p>") [] l2 rest _ H2).
    apply matchHere_nil_u.
  - rewrite group1_takes_u. cbn [closeGroup inGroup group1].
    rewrite group1_takes_u. reflexivity.
Qed.

Lemma OccursAt_nil (el : ustring) (n : nat) : OccursAt el [] n -> el = [].
Proof.
  intros (pre & post & H & _). destruct pre; [| discriminate].
  destruct el; [reflexivity | discriminate].
Qed.

Lemma MetaDescription_not_nil (v : ustring) : ~ MetaDescription [] v.
Proof.
  intros (l1 & ws1 & l2 & ws2 & l3 & E & H1 & _).
  destruct l1; [discriminate H1 | discriminate E].
Qed.

Lemma Paragraph_not_nil (t : ustring) : ~ Paragraph [] t.
Proof.
  intros (l1 & attrs & l2 & E & H1 & _).
  destruct l1; [discriminate H1 | discriminate E].
Qed.

Lemma no_meta_by_exec (html : ustring) :
  exec metaRegex html = None ->
  forall tag v n, MetaDescription tag v -> ~ OccursAt tag html n.
Proof.
  intros E tag v n HD (pre & post & -> & _).
  exact (exec_occurs_u metaRegex MetaDescription metaRegex_complete
           pre tag v post HD E).
Qed.

Lemma no_paragraph_by_exec (html : ustring) :
  exec pRegex html = None ->
  forall el t n, Paragraph el t -> ~ OccursAt el html n.
Proof.
  intros E el t n HD (pre & post & -> & _).
  exact (exec_occurs_u pRegex Paragraph pRegex_complete pre el t post HD E).
Qed.

(** C3, as the spec has it, fails: on a page with no meta tag and no
    paragraph (the empty page) the answer is not the sentence with the full
    stop. *)
Lemma extractDescription_fallback_has_no_full_stop :
  (forall tag v n, MetaDescription tag v -> ~ OccursAt tag [] n)
  /\ (forall el t n, Paragraph el t -> ~ OccursAt el [] n)
  /\ extractDescription [] <> lit "Component description not available.".
Proof.
  split; [| split].
  - intros tag v n H Ho. apply OccursAt_nil in Ho. subst.
    exact (MetaDescription_not_nil v H).
  - intros el t n H Ho. apply OccursAt_nil in Ho. subst.
    exact (Paragraph_not_nil t H).
  - vm_compute. discriminate.
Qed.

(** C3, amended. For every page, a string of any code units: when
    description meta tags occur, the answer is the content of the leftmost
    one; when none occurs and paragraph elements occur, it is the text of
    the leftmost one; when neither occurs, it is "Component description not
    available", with no full stop. *)
Theorem extractDescription_spec (html : ustring) :
  (forall tag v n,
      MetaDescription tag v -> OccursAt tag html n ->
      (forall tag' v' n',
          MetaDescription tag' v' -> OccursAt tag' html n' -> n <= n') ->
      extractDescription html = v)
  /\ ((forall tag v n, MetaDescription tag v -> ~ OccursAt tag html n) ->
      (forall el t n,
          Paragraph el t -> OccursAt el html n ->
          (forall el' t' n',
              Paragraph el' t' -> OccursAt el' html n' -> n <= n') ->
          extractDescription html = t)
      /\ ((forall el t n, Paragraph el t -> ~ OccursAt el html n) ->
          extractDescription html
          = lit "Component description not available")).
Proof.
  split.
  - intros tag v n HD (pre & post & -> & Hn) Hmin.
    destruct (exec_leftmost_u metaRegex MetaDescription metaRegex_sound
                metaRegex_complete pre tag v post HD) as (m & Hm & Hg).
    + intros pre' el' v' post' HD' E. rewrite Hn.
      apply (Hmin el' v' (List.length pre') HD').
      exists pre', post'. split; [exact E | reflexivity].
    + unfold extractDescription. now rewrite Hm.
  - intros Hno.
    assert (Em : exec metaRegex html = None).
    { apply (exec_none_u metaRegex MetaDescription metaRegex_sound).
      intros pre el v post HD E.
      apply (Hno el v (List.length pre) HD). now exists pre, post. }
    split.
    + intros el t n HD (pre & post & -> & Hn) Hmin.
      destruct (exec_leftmost_u pRegex Paragraph pRegex_sound pRegex_complete
                  pre el t post HD) as (m & Hm & Hg).
      * intros pre' el' v' post' HD' E. rewrite Hn.
        apply (Hmin el' v' (List.length pre') HD').
        exists pre', post'. split; [exact E | reflexivity].
      * unfold extractDescription. now rewrite Em, Hm.
    + intros Hnop. unfold extractDescription. rewrite Em.
      rewrite (exec_none_u pRegex Paragraph pRegex_sound); [reflexivity |].
      intros pre el v post HD E.
      apply (Hnop el v (List.length pre) HD). now exists pre, post.
Qed.

Lemma extractDescription_spec_witness :
  extractDescription metaPage = lit "Displays rows and columns of data."
  /\ extractDescription nbspMetaPage = lit "A"
  /\ extractDescription (lit "<p>Some text</p>") = lit "Some text"
  /\ extractDescription (lit "<div>Some text</div>")
     = lit "Component description not available".
Proof.
  split; [| split; [| split]].
  - apply (proj1 (extractDescription_spec metaPage) metaTag
             (lit "Displays rows and columns of data.") 0).
    + exists (lit "<meta"), (lit " "),
        (lit "name=" ++ dquote ++ lit "description" ++ dquote)%list,
        (lit " "), (lit "content=" ++ dquote)%list.
      repeat split; try reflexivity; discriminate.
    + exists [], (lit "><p>Some text</p>"). split; reflexivity.
    + intros. apply Nat.le_0_l.
  - apply (proj1 (extractDescription_spec nbspMetaPage) nbspMetaTag
             (lit "A") 0).
    + exists (lit "<meta"), [160%N],
        (lit "name=" ++ dquote ++ lit "description" ++ dquote)%list,
        (lit " "), (lit "content=" ++ dquote)%list.
      repeat split; try reflexivity; discriminate.
    + exists [], (lit "><p>B</p>"). split; reflexivity.
    + intros. apply Nat.le_0_l.
  - apply (proj1 (proj2 (extractDescription_spec (lit "<p>Some text</p>"))
                    (no_meta_by_exec (lit "<p>Some text</p>") eq_refl))
             (lit "<p>Some text</p>") (lit "Some text") 0).
    + exists (lit "<p"), [], (lit "</p>").
      repeat split; try reflexivity; discriminate.
    + exists [], []. split; reflexivity.
    + intros. apply Nat.le_0_l.
  - apply (proj2 (proj2 (extractDescription_spec (lit "<div>Some text</div>"))
                    (no_meta_by_exec (lit "<div>Some text</div>") eq_refl))).
    apply no_paragraph_by_exec. reflexivity.
Defined.

(** X11. The description is never empty, and it is the content of a
    description meta tag of the page, the text of a paragraph element of the
    page, or the fallback sentence. *)
Theorem extractDescription_sound (html : ustring) :
  extractDescription html <> []
  /\ ((exists tag n,
          MetaDescription tag (extractDescription html)
          /\ OccursAt tag html n)
      \/ (exists el n,
             Paragraph el (extractDescription html) /\ OccursAt el html n)
      \/ extractDescription html
         = lit "Component description not available").
Proof.
  unfold extractDescription.
  destruct (exec metaRegex html) as [m |] eqn:Em.
  - apply exec_matchHere in Em as (pre & suf & -> & Hm).
    apply metaRegex_sound in Hm as (el & rest & -> & HD). split.
    + destruct HD as (? & ? & ? & ? & ? & _ & _ & _ & _ & _ & _ & _ & _ & _ & H).
      exact H.
    + left. exists el, (List.length pre). split; [exact HD |].
      now exists pre, rest.
  - destruct (exec pRegex html) as [m |] eqn:Ep.
    + apply exec_matchHere in Ep as (pre & suf & -> & Hm).
      apply pRegex_sound in Hm as (el & rest & -> & HD). split.
      * destruct HD as (? & ? & ? & _ & _ & _ & _ & H & _). exact H.
      * right. left. exists el, (List.length pre). split; [exact HD |].
        now exists pre, rest.
    + split; [discriminate | right; right; reflexivity].
Qed.

(** ** The search on the tables of the source *)

(** X7. In the result of a search, for any query and any lower-casing,
    the components that come from the categories stand first, in the order
    the category loop met them; the components found by name only follow. *)
Theorem search_matches_categories_first
    (toLowerCase : ustring -> ustring) (query : ustring) :
  exists byName,
    search_matches toLowerCase query
    = (categoryPass (toLowerCase query) COMPONENT_MAP [] ++ byName)%list
    /\ forall c,
         In c byName ->
         In c COMPONENTS
         /\ Substring (toLowerCase query) (toLowerCase c)
         /\ ~ In c (categoryPass (toLowerCase query) COMPONENT_MAP []).
Proof.
  unfold search_matches.
  destruct (namePass_extends toLowerCase (toLowerCase query) COMPONENTS
              (categoryPass (toLowerCase query) COMPONENT_MAP []))
    as (rest & E & Hr).
  exists rest. split; [exact E |]. intros c Hc.
  destruct (Hr c Hc) as (H1 & H2 & H3). rewrite <- includes_iff_u. tauto.
Qed.

Lemma category_members :
  forallb
    (fun entry : ustring * list ustring =>
       forallb
         (fun c =>
            has COMPONENTS c
            || (eqb (fst entry) (lit "feedback") && eqb c (lit "Progress"))
            || (eqb (fst entry) (lit "utility") && eqb c (lit "No SSR")))
         (snd entry))
    COMPONENT_MAP = true.
Proof. vm_compute. reflexivity. Qed.

Lemma category_member (category : ustring) (components : list ustring)
    (c : ustring) :
  In (category, components) COMPONENT_MAP -> In c components ->
  In c COMPONENTS
  \/ (category = lit "feedback" /\ c = lit "Progress")
  \/ (category = lit "utility" /\ c = lit "No SSR").
Proof.
  intros He Hc.
  pose proof (proj1 (forallb_forall _ _) category_members _ He) as H.
  cbn [fst snd] in H.
  pose proof (proj1 (forallb_forall _ _) H c Hc) as H'.
  rewrite !orb_true_iff, !andb_true_iff, !eqb_eq, has_In_u in H'.
  tauto.
Qed.

(** X8. For any query and any lower-casing: every name in a search result
    is a catalog name, "Progress" or "No SSR"; "Progress" is there exactly
    when the lowercased query contains "feedback" and "No SSR" exactly when
    it contains "utility"; so a result has at most 58 names. *)
Theorem search_matches_extent
    (toLowerCase : ustring -> ustring) (query : ustring) :
  (forall c, In c (search_matches toLowerCase query) ->
             In c COMPONENTS \/ In c strayNames)
  /\ (In (lit "Progress") (search_matches toLowerCase query)
      <-> Substring (lit "feedback") (toLowerCase query))
  /\ (In (lit "No SSR") (search_matches toLowerCase query)
      <-> Substring (lit "utility") (toLowerCase query))
  /\ List.length (search_matches toLowerCase query) <= 58.
Proof.
  assert (Hext : forall c, In c (search_matches toLowerCase query) ->
                           In c COMPONENTS \/ In c strayNames).
  { intros c. unfold search_matches. rewrite In_namePass, In_categoryPass.
    intros [[[] | (cat & comps & He & _ & Hc)] | [H _]]; [| now left].
    destruct (category_member cat comps c He Hc) as [H | [[_ ->] | [_ ->]]];
      [now left | right; simpl; tauto | right; simpl; tauto]. }
  assert (HP : ~ In (lit "Progress") COMPONENTS)
    by (apply not_In_by_has_u; vm_compute; reflexivity).
  assert (HN : ~ In (lit "No SSR") COMPONENTS)
    by (apply not_In_by_has_u; vm_compute; reflexivity).
  split; [exact Hext |]. split; [| split].
  - unfold search_matches. rewrite In_namePass, In_categoryPass. split.
    + intros [[[] | (cat & comps & He & Hi & Hc)] | [H _]]; [| tauto].
      destruct (category_member cat comps _ He Hc)
        as [H | [[-> _] | [_ H]]]; [tauto | | discriminate H].
      now apply includes_iff_u.
    + intros H. left. right.
      exists (lit "feedback"),
        (map lit
           ["Alert"; "Backdrop"; "Dialog"; "Progress"; "Circular Progress";
            "Linear Progress"; "Skeleton"; "Snackbar"]).
      split; [| split; [now apply includes_iff_u | simpl; tauto]].
      unfold COMPONENT_MAP. simpl. tauto.
  - unfold search_matches. rewrite In_namePass, In_categoryPass. split.
    + intros [[[] | (cat & comps & He & Hi & Hc)] | [H _]]; [| tauto].
      destruct (category_member cat comps _ He Hc)
        as [H | [[_ H] | [-> _]]]; [tauto | discriminate H |].
      now apply includes_iff_u.
    + intros H. left. right.
      exists (lit "utility"),
        (map lit ["Click Away Listener"; "CSS Baseline"; "Portal"; "No SSR"]).
      split; [| split; [now apply includes_iff_u | simpl; tauto]].
      unfold COMPONENT_MAP. simpl. tauto.
  - change 58 with (List.length (COMPONENTS ++ strayNames)%list).
    apply NoDup_incl_length; [apply NoDup_search_matches |].
    intros c Hc. apply in_or_app. exact (Hext c Hc).
Qed.

Lemma search_matches_extent_witness :
  In (lit "Progress") (search_matches kelvinLower (lit "FEEDBAC" ++ [8490%N])%list)
  /\ In (lit "Alert") COMPONENTS.
Proof.
  destruct (search_matches_extent kelvinLower (lit "FEEDBAC" ++ [8490%N])%list)
    as (H1 & H2 & _).
  split.
  - apply H2. exists [], []. reflexivity.
  - destruct (H1 (lit "Alert")) as [H | H].
    + apply has_In_u. vm_compute. reflexivity.
    + exact H.
    + simpl in H. destruct H as [H | [H | []]]; discriminate H.
Defined.

(** ** The handler of [get_component_info] *)

(** C10, as the spec has it, fails: on a page whose only paragraph is the
    sentence [extractUsage] falls back to, the result of [extractUsage]
    occurs, letter for letter, in the answer of [get_component_info]. *)
Lemma extractUsage_result_can_occur_in_the_answer :
  extractUsage usageSentencePage
  = lit "See documentation for usage examples."
  /\ exists t,
       get_component_info asciiUpper (servePage 200 usageSentencePage)
         noImportMatch (lit "button")
       = Normal (textResult t)
       /\ Substring (extractUsage usageSentencePage) t.
Proof.
  split; [vm_compute; reflexivity |].
  eexists. split; [vm_compute; reflexivity |].
  apply includes_iff_u. vm_compute. reflexivity.
Qed.

(** C10, amended. For every key and every page, whatever the upper-casing
    of the language does: on the success path the answer is the fixed
    template filled with the title derived from the key, the extracted
    description, the extracted import statement and the documentation URL.
    [extractUsage] takes no part in it: a host that serves another page
    with the same description and the same import statement gets the same
    answer, whatever the usage snippets of the two pages are. *)
Theorem get_component_info_success
    (toUpperCase : ustring -> ustring)
    (fetch : ustring -> completion Response)
    (matchDynamic
       : ustring -> ustring -> ustring -> completion (option ustring))
    (component : ustring) (response : Response)
    (html importStatement : ustring) :
  fetch (lit "https://mui.com/material-ui/react-" ++ component ++ lit "/")%list
  = Normal response ->
  ok response = true ->
  responseText response = Normal html ->
  extractImport matchDynamic html (keyToTitle toUpperCase component)
  = Normal importStatement ->
  get_component_info toUpperCase fetch matchDynamic component =
  Normal
    {| content :=
         [ {| type := lit "text";
              text :=
                (lit "# " ++ keyToTitle toUpperCase component
                   ++ lit " Component" ++ nl ++ nl
                   ++ extractDescription html ++ nl ++ nl
                   ++ lit "## Import" ++ nl ++ lit "```tsx" ++ nl
                   ++ importStatement ++ nl ++ lit "```" ++ nl ++ nl
                   ++ lit "## Documentation" ++ nl
                   ++ lit "Full documentation: "
                   ++ lit "https://mui.com/material-ui/react-" ++ component
                   ++ lit "/" ++ nl ++ nl
                   ++ lit "For API reference and props, visit the API tab on the documentation page."
                   ++ nl ++ nl
                   ++ lit "## Related Resources" ++ nl
                   ++ lit "- Check the documentation page for live demos and examples"
                   ++ nl
                   ++ lit "- Use get_customization_guide for theming and styling options"
                   ++ nl
                   ++ lit "- Use search_components to find related components")%list
           |} ] |}
  /\ (forall fetch' response' html',
        fetch' (lit "https://mui.com/material-ui/react-" ++ component
                  ++ lit "/")%list
        = Normal response' ->
        ok response' = true ->
        responseText response' = Normal html' ->
        extractDescription html' = extractDescription html ->
        extractImport matchDynamic html' (keyToTitle toUpperCase component)
        = Normal importStatement ->
        get_component_info toUpperCase fetch' matchDynamic component
        = get_component_info toUpperCase fetch matchDynamic component).
Proof.
  intros Hf Hok Ht Hi.
  assert (E : forall f r h,
             f (lit "https://mui.com/material-ui/react-" ++ component
                  ++ lit "/")%list = Normal r ->
             ok r = true -> responseText r = Normal h ->
             extractImport matchDynamic h (keyToTitle toUpperCase component)
             = Normal importStatement ->
             get_component_info toUpperCase f matchDynamic component =
             Normal (textResult
               (lit "# " ++ keyToTitle toUpperCase component
                  ++ lit " Component" ++ nl ++ nl
                  ++ extractDescription h ++ nl ++ nl
                  ++ lit "## Import" ++ nl ++ lit "```tsx" ++ nl
                  ++ importStatement ++ nl ++ lit "```" ++ nl ++ nl
                  ++ lit "## Documentation" ++ nl
                  ++ lit "Full documentation: "
                  ++ (lit "https://mui.com/material-ui/react-" ++ component
                        ++ lit "/") ++ nl ++ nl
                  ++ lit "For API reference and props, visit the API tab on the documentation page."
                  ++ nl ++ nl
                  ++ lit "## Related Resources" ++ nl
                  ++ lit "- Check the documentation page for live demos and examples"
                  ++ nl
                  ++ lit "- Use get_customization_guide for theming and styling options"
                  ++ nl
                  ++ lit "- Use search_components to find related components")%list)).
  { intros f r h Hf' Hok' Ht' Hi'. unfold get_component_info.
    cbv zeta. rewrite Hf'. cbn [bind tryCatch]. rewrite Hok'. cbn [negb].
    rewrite Ht'. cbn [bind]. rewrite Hi'. reflexivity. }
  split.
  - rewrite (E fetch response html Hf Hok Ht Hi). unfold textResult.
    now rewrite <- !app_assoc.
  - intros fetch' response' html' Hf' Hok' Ht' Hd Hi'.
    rewrite (E fetch response html Hf Hok Ht Hi).
    rewrite (E fetch' response' html' Hf' Hok' Ht' Hi'). now rewrite Hd.
Qed.

Lemma get_component_info_success_witness :
  extractUsage pageWithUsage <> extractUsage pageWithoutUsage
  /\ get_component_info asciiUpper (servePage 200 pageWithoutUsage)
       noImportMatch (lit "toggle-button")
     = get_component_info asciiUpper (servePage 200 pageWithUsage)
         noImportMatch (lit "toggle-button").
Proof.
  pose proof (get_component_info_success asciiUpper
                (servePage 200 pageWithUsage) noImportMatch
                (lit "toggle-button")
                {| status := 200; responseText := Normal pageWithUsage |}
                pageWithUsage
                (lit "import { ToggleButton } from '@mui/material';")
                eq_refl eq_refl eq_refl eq_refl) as [_ H2].
  split; [vm_compute; discriminate |].
  apply (H2 (servePage 200 pageWithoutUsage)
            {| status := 200; responseText := Normal pageWithoutUsage |}
            pageWithoutUsage); reflexivity.
Defined.

End Utf16Facts.

(* ================================================================= *)
(** * The two layers on ASCII inputs

    On ASCII inputs, with the case mappings of ASCII text, the functions on
    code units give what the functions of the ASCII layer give. *)

Example layers_agree_on_keys :
  Utf16.toKebabCase Utf16.asciiLower (Utf16.lit "Floating  Action Button")
  = Utf16.lit (toKebabCase "Floating  Action Button")
  /\ Utf16.keyToTitle Utf16.asciiUpper (Utf16.lit "click-away-listener")
     = Utf16.lit (keyToTitle "click-away-listener")
  /\ Utf16.getComponentUrl Utf16.asciiLower (Utf16.lit "App Bar")
     = Utf16.lit (getComponentUrl "App Bar").
Proof. vm_compute. repeat split. Qed.

Example layers_agree_on_search :
  Utf16.search_components Utf16.asciiLower (Utf16.lit "loading")
  = liftResult (search_components "loading")
  /\ Utf16.search_components Utf16.asciiLower (Utf16.lit "I need a FORM")
     = liftResult (search_components "I need a FORM")
  /\ Utf16.search_components Utf16.asciiLower (Utf16.lit "zzz-nonexistent")
     = liftResult (search_components "zzz-nonexistent")
  /\ Utf16.search_components Utf16.asciiLower []
     = liftResult (search_components "").
Proof. vm_compute. repeat split. Qed.

Example layers_agree_on_extraction :
  Utf16.extractDescription Utf16.metaPage
  = Utf16.lit (extractDescription metaPage)
  /\ Utf16.extractDescription (Utf16.lit "<P class='lead'>Some text</P>")
     = Utf16.lit (extractDescription "<P class='lead'>Some text</P>")
  /\ Utf16.extractDescription (Utf16.lit "<p><b>Some</b> text</p>")
     = Utf16.lit (extractDescription "<p><b>Some</b> text</p>")
  /\ Utf16.extractUsage Utf16.pageWithUsage
     = Utf16.lit (extractUsage pageWithUsage)
  /\ Utf16.extractUsage Utf16.pageWithoutUsage
     = Utf16.lit (extractUsage pageWithoutUsage).
Proof. vm_compute. repeat split. Qed.

Example layers_agree_on_get_component_info :
  Utf16.get_component_info Utf16.asciiUpper
    (Utf16.servePage 200 Utf16.pageWithUsage) Utf16.noImportMatch
    (Utf16.lit "toggle-button")
  = liftCompletion
      (get_component_info (servePage 200 pageWithUsage) noImportMatch
         "toggle-button")
  /\ Utf16.get_component_info Utf16.asciiUpper
       (Utf16.servePage 404 []) Utf16.noImportMatch
       (Utf16.lit "nonexistent-component")
     = liftCompletion
         (get_component_info (servePage 404 "") noImportMatch
            "nonexistent-component")
  /\ Utf16.get_component_info Utf16.asciiUpper
       (fetchFailsU (Utf16.ErrorObject (Utf16.lit "getaddrinfo ENOTFOUND mui.com")))
       Utf16.noImportMatch (Utf16.lit "button")
     = liftCompletion
         (get_component_info
            (fetchFails (ErrorObject "getaddrinfo ENOTFOUND mui.com"))
            noImportMatch "button").
Proof. vm_compute. repeat split. Qed.
